(** * PropData Estimator: the valuation engine of [app.py]

    A shallow embedding of the rate tables, [MarketConfig], [ValuationEngine]
    and [format_pk] of [src/app.py], and the properties of them that the
    specification states. Part I is the model, Part II what the proofs need
    about binary64 arithmetic, Part III the properties.

    Python's [int] is [Z]; Python's [float] is IEEE 754 binary64, here Rocq's
    primitive [float] (same format, round to nearest even), so every
    arithmetic step below rounds exactly where the Python expression does.
    Dictionaries are stdpp's [gmap]. The two reads of the environment, the
    calendar year of [datetime.date.today()] and the draw of
    [np.random.uniform], are explicit arguments. *)

From Stdlib Require Import ZArith QArith Bool Ascii String Lia Floats.
From stdpp Require Import base option list strings gmap.

Set Warnings "-inexact-float".
Local Open Scope string_scope.
Local Open Scope Z_scope.

(** * Part I: the model *)

(** ** Rate tables (app.py, lines 30-54) *)

(** [MARKET_CLUSTERS]: cluster label to its locations, in source order. *)
Definition MARKET_CLUSTERS : list (string * list (string * Z)) :=
  [ ("Elite / Premium",
      [ ("DHA Phase 8", 190000); ("DHA Phase 6", 165000); ("DHA Phase 5", 160000);
        ("DHA Phase 2", 145000); ("Clifton Block 2", 170000); ("Clifton Block 5", 165000);
        ("KDA Scheme 1", 150000); ("Navy Housing (Karsaz)", 155000); ("Askari 4", 125000);
        ("Askari 5", 120000); ("PECHS Block 2", 130000); ("PECHS Block 6", 140000) ]);
    ("Upper Mid-Range",
      [ ("Bahadurabad", 110000); ("Mohammad Ali Society", 115000); ("Al-Hilal Society", 105000);
        ("Gulshan Block 13D", 95000); ("Gulshan Block 10", 90000);
        ("North Nazimabad (Hyderi)", 100000); ("North Nazimabad Block H", 95000);
        ("Garden West", 95000); ("Federal B Area", 90000) ]);
    ("Mid-Range",
      [ ("Gulistan-e-Jauhar Blk 1", 80000); ("Gulistan-e-Jauhar Blk 15", 75000);
        ("Scheme 33 (Saadi Town)", 65000); ("Scheme 33 (Metrovil)", 60000);
        ("Bahria Town (Precinct 1)", 110000); ("Bahria Town (Precinct 10)", 85000);
        ("Malir Cantt", 95000); ("Bufferzone", 70000); ("North Karachi", 60000) ]);
    ("Affordable",
      [ ("New Karachi", 45000); ("Surjani Town", 35000); ("Korangi Crossing", 55000);
        ("Korangi Industrial", 60000); ("Orangi Town", 30000); ("Lyari", 35000);
        ("Taiser Town", 25000); ("Baldia Town", 30000) ]) ].

(** A dict built entry by entry: a later entry for a key replaces an earlier one. *)
Definition dict_of_items {V} (items : list (string * V)) : gmap string V :=
  foldl (fun m kv => <[kv.1 := kv.2]> m) ∅ items.

(** [BASE_RATES = {loc: price for cluster in MARKET_CLUSTERS.values()
                              for loc, price in cluster.items()}] *)
Definition BASE_RATES : gmap string Z :=
  dict_of_items (concat (map snd MARKET_CLUSTERS)).

(** [d.get(key, default)] *)
Definition dict_get {V} (d : gmap string V) (key : string) (default : V) : V :=
  match d !! key with
  | Some v => v
  | None => default
  end.

(** ** Market configuration (app.py, lines 74-86) *)

Record MarketConfig := {
  QUALITY_MULTIPLIERS : gmap string float;
  ROAD_WIDTH_FACTORS : gmap string float;
  COMMERCIAL_MULTIPLIER : float;
  ROOM_PREMIUM : Z
}.

(** [MarketConfig()]: the field defaults. *)
Definition default_config : MarketConfig := {|
  QUALITY_MULTIPLIERS := dict_of_items
    [ ("A+ (Luxury)", 1.60%float); ("A (Premium)", 1.30%float);
      ("B (Standard)", 1.00%float); ("C (Basic)", 0.85%float) ];
  ROAD_WIDTH_FACTORS := dict_of_items
    [ ("Main Boulevard (100ft+)", 1.15%float); ("Wide Road (60-80ft)", 1.08%float);
      ("Standard Street (30-40ft)", 1.00%float); ("Narrow Lane (<30ft)", 0.95%float) ];
  COMMERCIAL_MULTIPLIER := 1.60%float;
  ROOM_PREMIUM := 1200000
|}.

(** ** Python's int-to-float conversion

    [int * float] converts the int first. The conversion rounds to the nearest
    binary64 value, ties to even, and raises [OverflowError] when that value
    is out of range. *)

Inductive exn := OverflowError | ValueError.

Definition result (A : Type) : Type := A + exn.
Definition Ok {A} (a : A) : result A := inl a.
Definition Raise {A} (e : exn) : result A := inr e.

Definition bind {A B} (r : result A) (k : A -> result B) : result B :=
  match r with
  | inl a => k a
  | inr e => inr e
  end.

Notation "'try' x <- r ; k" := (bind r (fun x => k))
  (at level 10, x name, r at level 100, k at level 200).

Definition round_int (z : Z) : float :=
  SF2Prim (binary_normalize prec emax z 0 false).

Definition fits_float (z : Z) : bool := negb (is_infinity (round_int z)).

Definition float_of_int (z : Z) : result float :=
  if fits_float z then Ok (round_int z) else Raise OverflowError.

(** ** The valuation engine (app.py, lines 137-179) *)

(** The request dict as [Application.render] builds it (lines 298-303): all
    ten keys, the numbers passed through [int] and the flags through [bool].
    The property type stays a string, compared with the two names as the
    code compares it. *)
Record Params := {
  location : string;
  area : Z;
  type : string;
  road_width : string;
  year_built : Z;
  bedrooms : Z;
  quality : string;
  is_corner : bool;
  is_park : bool;
  is_west_open : bool
}.

Record Breakdown := {
  base_rate : Z;
  land : float;
  structure : float;
  features : float;
  depreciation_factor : float;
  pre_variance : float
}.

Record Estimate := {
  price : float;
  breakdown : Breakdown
}.

(** [age = max(0, current - construction_year)] *)
Definition property_age (current construction_year : Z) : Z :=
  Z.max 0 (current - construction_year).

(** [current] is [datetime.date.today().year]. *)
Definition calculate_depreciation_factor (current construction_year : Z) : float :=
  let age := property_age current construction_year in
  if age <=? 0 then 1.10%float
  else if age <=? 5 then 1.00%float
  else if age <=? 10 then 0.85%float
  else if age <=? 20 then 0.70%float
  else 0.55%float.

(** [features += land_value * k] under a flag. *)
Definition add_premium (flag : bool) (land_value k features : float) : float :=
  if flag then (features + land_value * k)%float else features.

(** [variance] is the value drawn by [np.random.uniform(0.97, 1.03)]. The
    [try ... except] of the source logs and re-raises, so an exception is
    the outcome of the call. *)
Definition calculate_estimate (config : MarketConfig) (current : Z)
    (params : Params) (variance : float) : result Estimate :=
  let base := dict_get BASE_RATES (location params) 50000 in
  let road_f := dict_get (ROAD_WIDTH_FACTORS config) (road_width params) 1.0%float in
  try base_f <- float_of_int base;
  try area_f <- float_of_int (area params);
  let land_value := (base_f * road_f * area_f)%float in
  try sd <- (if String.eqb (type params) "Residential" then
           let raw_struct := bedrooms params * ROOM_PREMIUM config in
           let quality_mult :=
             dict_get (QUALITY_MULTIPLIERS config) (quality params) 1.0%float in
           let depreciation := calculate_depreciation_factor current (year_built params) in
           try raw_f <- float_of_int raw_struct;
           Ok ((raw_f * quality_mult * depreciation)%float, depreciation)
         else Ok (0.0%float, 1.0%float));
  let structure_value := fst sd in
  let depreciation := snd sd in
  let features := 0.0%float in
  let features := add_premium (is_corner params) land_value 0.15%float features in
  let features := add_premium (is_park params) land_value 0.10%float features in
  let features := add_premium (is_west_open params) land_value 0.05%float features in
  let total := (land_value + structure_value + features)%float in
  let total :=
    if String.eqb (type params) "Commercial"
    then (total * COMMERCIAL_MULTIPLIER config)%float else total in
  let final := (total * variance)%float in
  Ok {| price := final;
        breakdown := {| base_rate := base; land := land_value;
                        structure := structure_value; features := features;
                        depreciation_factor := depreciation;
                        pre_variance := total |} |}.

(** The inputs the form of [Application.render] can submit (lines 257-283):
    a listed location and road width, an area of 50 to 4000 (the slider's
    step of 10 is not needed below), a construction year of 1950 to 2025
    and, for a residential property, 1 to 12 bedrooms and a listed quality. *)
Definition valid_request (p : Params) : Prop :=
  is_Some (BASE_RATES !! location p)
  /\ 50 <= area p <= 4000
  /\ (type p = "Residential" \/ type p = "Commercial")
  /\ is_Some (ROAD_WIDTH_FACTORS default_config !! road_width p)
  /\ 1950 <= year_built p <= 2025
  /\ (type p = "Residential" ->
      1 <= bedrooms p <= 12
      /\ is_Some (QUALITY_MULTIPLIERS default_config !! quality p)).

(** ** The forecast (app.py, lines 184-192) *)

(** [numpy.linspace(start, stop, num)] on float scalars, endpoint included,
    as numpy computes it: [arange(0, num) * step + start] with
    [step = (stop - start) / (num - 1)], the last entry then set to [stop];
    [ValueError] for a negative [num]. *)
Definition linspace (start stop : float) (num : Z) : result (list float) :=
  if num <? 0 then Raise ValueError
  else
    let div := num - 1 in
    let delta := (stop - start)%float in
    let y := (fun i => round_int (Z.of_nat i)) <$> seq 0 (Z.to_nat num) in
    let y :=
      if 0 <? div then
        let step := (delta / round_int div)%float in
        if (step =? 0)%float
        then (fun yi => (yi / round_int div * delta)%float) <$> y
        else (fun yi => (yi * step)%float) <$> y
      else (fun yi => (yi * delta)%float) <$> y in
    let y := (fun yi => (yi + start)%float) <$> y in
    Ok (if 1 <? num then <[Nat.pred (length y) := stop]> y else y).

Record date := { year : Z; month : Z; day : Z }.

Definition is_leap (y : Z) : bool :=
  (y mod 4 =? 0) && (negb (y mod 100 =? 0) || (y mod 400 =? 0)).

Definition days_in_month (y m : Z) : Z :=
  if m =? 2 then (if is_leap y then 29 else 28)
  else if (m =? 4) || (m =? 6) || (m =? 9) || (m =? 11) then 30
  else 31.

(** The last day of the month that is [k] months after January of year 0. *)
Definition month_end (k : Z) : date :=
  {| year := k / 12; month := k mod 12 + 1;
     day := days_in_month (k / 12) (k mod 12 + 1) |}.

(** A [pandas.Timestamp] counts nanoseconds in 64 bits, from 1677-09-21 to
    2262-04-11: the month ends it can hold are those from 1677-09-30 to
    2262-03-31, month [k] counted from January of year 0. *)
Definition timestamp_month (k : Z) : bool :=
  (12 * 1677 + 8 <=? k) && (k <=? 12 * 2262 + 2).

(** [pandas.date_range(start=today, periods=n, freq='ME')]: the [n] month
    ends from the end of today's month on. A month end that no [Timestamp]
    holds makes the call raise [OutOfBoundsDatetime], which is a
    [ValueError]. *)
Definition date_range_ME (today : date) (periods : Z) : result (list date) :=
  let months :=
    (fun i => 12 * year today + (month today - 1) + Z.of_nat i)
      <$> seq 0 (Z.to_nat periods) in
  if forallb timestamp_month months then Ok (month_end <$> months)
  else Raise ValueError.

Record DataFrame := { Date : list date; Market_Value : list float }.

(** [normal loc scale size] stands for the [size] draws of
    [np.random.normal(loc, scale, size)], which rejects a negative [scale];
    [today] is [datetime.date.today()]. The cache of [st.cache_data] is not
    modelled. *)
Definition generate_forecast (normal : float -> float -> nat -> list float)
    (today : date) (start_price : float) (months : Z) : result DataFrame :=
  try growth <- linspace start_price (start_price * 1.12)%float months;
  let scale := (start_price * 0.015)%float in
  try noise <- (if (scale <? 0)%float then Raise ValueError
                else Ok (normal 0%float scale (Z.to_nat months)));
  let values := zip_with (fun g n => (g + n)%float) growth noise in
  try dates <- date_range_ME today months;
  Ok {| Date := dates; Market_Value := values |}.


(** ** Currency formatting (app.py, lines 194-197) *)

(** [m / 2^n] rounded to the nearest integer, ties to even. *)
Definition rne (m n : Z) : Z :=
  let q := m / 2 ^ n in
  let r := m mod 2 ^ n in
  if 2 * r <? 2 ^ n then q
  else if 2 * r =? 2 ^ n then (if Z.even q then q else q + 1)
  else q + 1.

Definition digit_char (d : Z) : ascii := ascii_of_nat (48 + Z.to_nat d).

Fixpoint decimal_digits (fuel : nat) (n : Z) (acc : list ascii) : list ascii :=
  match fuel with
  | O => acc
  | S fuel' =>
      let acc' := digit_char (n mod 10) :: acc in
      if n <? 10 then acc' else decimal_digits fuel' (n / 10) acc'
  end.

(** The decimal numeral of a natural number. *)
Definition decimal (n : Z) : list ascii :=
  decimal_digits (S (Z.to_nat (Z.log2 n))) n [].

(** A comma after every third digit, on the reversed numeral. *)
Fixpoint group3 (rev_digits : list ascii) : list ascii :=
  match rev_digits with
  | a :: b :: c :: rest =>
      match rest with
      | [] => rev_digits
      | _ :: _ => a :: b :: c :: ","%char :: group3 rest
      end
  | _ => rev_digits
  end.

Definition group_thousands (digits : list ascii) : list ascii :=
  rev (group3 (rev digits)).

(** The amount rounded to an integer as [format(amount, ".0f")] rounds it:
    to nearest, ties to even. *)
Definition round_half_even (m : positive) (e : Z) : Z :=
  if 0 <=? e then Z.pos m * 2 ^ e else rne (Z.pos m) (- e).

(** [f"{amount:,.0f}"] *)
Definition format_comma_0f (amount : float) : string :=
  match Prim2SF amount with
  | S754_nan => "nan"
  | S754_infinity s => if s then "-inf" else "inf"
  | S754_zero s => if s then "-0" else "0"
  | S754_finite s m e =>
      String.append (if s then "-" else "")
        (string_of_list_ascii (group_thousands (decimal (round_half_even m e))))
  end.

Definition format_pk (amount : float) : float * float * string :=
  let crore := (amount / 10000000)%float in
  let lakh := (amount / 100000)%float in
  (crore, lakh, String.append "PKR " (format_comma_0f amount)).

(** Reading a grouped numeral back, digit by digit: the separators are
    skipped. *)
Definition read_step (acc : Z) (c : ascii) : Z :=
  if Ascii.eqb c ","%char then acc else 10 * acc + (Z.of_nat (nat_of_ascii c) - 48).

Definition read_grouped (s : list ascii) : Z := fold_left read_step s 0.

(** ** Notions used to state the properties *)

(** [land_value], line 154. *)
Definition land_value_of (config : MarketConfig) (p : Params) : float :=
  (round_int (dict_get BASE_RATES (location p) 50000%Z)
   * dict_get (ROAD_WIDTH_FACTORS config) (road_width p) 1.0
   * round_int (area p))%float.

(** [features] after lines 164-167. *)
Definition features_of (config : MarketConfig) (p : Params) : float :=
  add_premium (is_west_open p) (land_value_of config p) 0.05
    (add_premium (is_park p) (land_value_of config p) 0.10
       (add_premium (is_corner p) (land_value_of config p) 0.15 0.0))%float.

(** The premium rates of the flags a request sets, in the order the code
    adds them. *)
Definition premium_rates (p : Params) : list float :=
  (if is_corner p then [0.15%float] else [])
  ++ (if is_park p then [0.10%float] else [])
  ++ (if is_west_open p then [0.05%float] else []).

(** The breakdown of an outcome, errors kept. *)
Definition breakdown_of (res : result Estimate) : result Breakdown :=
  try r <- res; Ok (breakdown r).

(** The request of the specification's worked examples, for a property type
    and a construction year. *)
Definition example_request (ty : string) (year : Z) : Params := {|
  location := "DHA Phase 8"; area := 240; type := ty;
  road_width := "Standard Street (30-40ft)"; year_built := year; bedrooms := 3;
  quality := "B (Standard)";
  is_corner := false; is_park := false; is_west_open := false
|}.

(** A corner, park-facing, west-open plot of 60 square yards on a main
    boulevard of DHA Phase 8. *)
Definition boulevard_request : Params := {|
  location := "DHA Phase 8"; area := 60; type := "Residential";
  road_width := "Main Boulevard (100ft+)"; year_built := 2020; bedrooms := 3;
  quality := "B (Standard)";
  is_corner := true; is_park := true; is_west_open := true
|}.

(** The exact rational value of a finite float. *)
Definition float_to_Q (x : float) : option Q :=
  match Prim2SF x with
  | S754_zero _ => Some 0%Q
  | S754_finite s m e =>
      Some (inject_Z (if s then Z.neg m else Z.pos m) * Qpower 2 e)%Q
  | _ => None
  end.

(** The last step of a binary64 rounding: from the rounded mantissa [M] at
    exponent [E] to the float. *)
Definition finish (s : bool) (M E : Z) : spec_float :=
  if M =? 0 then S754_zero s
  else if M =? 2 ^ 53
       then (if E + 1 <=? 971 then S754_finite s (2 ^ 52)%positive (E + 1)
             else S754_infinity s)
       else (if E <=? 971 then S754_finite s (Z.to_pos M) E else S754_infinity s).

(** Zero of either sign, a positive number or plus infinity. *)
Definition sf_nonneg (x : spec_float) : Prop := SFleb (S754_zero false) x = true.

(** A float strictly between 0 and infinity. *)
Definition positive_finite (x : float) : bool := ((0 <? x) && (x <? infinity))%float.

(** A sampler that draws no noise at all, for the examples. *)
Definition no_noise (loc scale : float) (size : nat) : list float := repeat 0%float size.





(** * Part I, continued: the coordinates, the form and the report *)

(** ** Coordinates (app.py, lines 56-72) *)

(** [AREA_COORDINATES]: location to [latitude, longitude]. *)
Definition AREA_COORDINATES : gmap string (float * float) :=
  dict_of_items
    [ ("DHA Phase 8", (24.7933, 67.0654)%float); ("DHA Phase 6", (24.8066, 67.0555)%float);
      ("DHA Phase 5", (24.8150, 67.0450)%float); ("DHA Phase 2", (24.8300, 67.0700)%float);
      ("Clifton Block 2", (24.8214, 67.0312)%float);
      ("Clifton Block 5", (24.8250, 67.0350)%float);
      ("KDA Scheme 1", (24.8615, 67.0944)%float);
      ("Navy Housing (Karsaz)", (24.8766, 67.0940)%float);
      ("Askari 4", (24.9150, 67.1250)%float); ("Askari 5", (24.9012, 67.1156)%float);
      ("PECHS Block 2", (24.8650, 67.0560)%float);
      ("PECHS Block 6", (24.8590, 67.0680)%float);
      ("Bahadurabad", (24.8825, 67.0694)%float);
      ("Mohammad Ali Society", (24.8760, 67.0850)%float);
      ("Al-Hilal Society", (24.8850, 67.0750)%float);
      ("Gulshan Block 13D", (24.9180, 67.0970)%float);
      ("Gulshan Block 10", (24.9300, 67.1050)%float);
      ("North Nazimabad (Hyderi)", (24.9380, 67.0450)%float);
      ("North Nazimabad Block H", (24.9450, 67.0400)%float);
      ("Garden West", (24.8750, 67.0250)%float);
      ("Federal B Area", (24.9450, 67.0750)%float);
      ("Gulistan-e-Jauhar Blk 1", (24.9250, 67.1350)%float);
      ("Gulistan-e-Jauhar Blk 15", (24.9150, 67.1450)%float);
      ("Scheme 33 (Saadi Town)", (24.9850, 67.1650)%float);
      ("Scheme 33 (Metrovil)", (24.9750, 67.1150)%float);
      ("Bahria Town (Precinct 1)", (25.0400, 67.3000)%float);
      ("Bahria Town (Precinct 10)", (25.0500, 67.3200)%float);
      ("Malir Cantt", (24.9500, 67.1900)%float); ("Bufferzone", (24.9650, 67.0650)%float);
      ("North Karachi", (24.9850, 67.0550)%float);
      ("New Karachi", (24.9950, 67.0650)%float); ("Surjani Town", (25.0250, 67.0550)%float);
      ("Korangi Crossing", (24.8350, 67.1350)%float);
      ("Korangi Industrial", (24.8250, 67.1250)%float);
      ("Orangi Town", (24.9450, 66.9950)%float); ("Lyari", (24.8650, 66.9950)%float);
      ("Taiser Town", (25.0550, 67.0850)%float); ("Baldia Town", (24.9100, 66.9700)%float) ].

(** ** The form of [Application.render] (app.py, lines 257-303) *)

(** What the widgets hand back on a submission. The bedrooms slider and the
    quality slider are drawn for a residential property only. *)
Module Form.
Record t := {
  zone : string;
  location : string;
  area : Z;
  prop_type : string;
  road_width : string;
  year_built : Z;
  bedrooms : Z;
  quality : string;
  is_corner : bool;
  is_park : bool;
  is_west : bool
}.
End Form.

(** The values the widgets can hand back: an option of each select box and
    radio, a slider position between its bounds on its step, a number within
    the bounds of the number input. *)
Definition form_ok (config : MarketConfig) (f : Form.t) : Prop :=
  (exists locations, In (Form.zone f, locations) MARKET_CLUSTERS
                     /\ In (Form.location f) (map fst locations))
  /\ (50 <= Form.area f <= 4000 /\ (Form.area f - 50) mod 10 = 0)
  /\ (Form.prop_type f = "Residential" \/ Form.prop_type f = "Commercial")
  /\ is_Some (ROAD_WIDTH_FACTORS config !! Form.road_width f)
  /\ 1950 <= Form.year_built f <= 2025
  /\ (Form.prop_type f = "Residential" ->
      1 <= Form.bedrooms f <= 12
      /\ is_Some (QUALITY_MULTIPLIERS config !! Form.quality f)).

(** [params], lines 271-277 and 298-303. *)
Definition form_params (f : Form.t) : Params :=
  let residential := String.eqb (Form.prop_type f) "Residential" in
  {| location := Form.location f; area := Form.area f; type := Form.prop_type f;
     road_width := Form.road_width f; year_built := Form.year_built f;
     bedrooms := if residential then Form.bedrooms f else 0;
     quality := if residential then Form.quality f else "B (Standard)";
     is_corner := Form.is_corner f; is_park := Form.is_park f;
     is_west_open := Form.is_west f |}.

(** ** The report (app.py, lines 102-135) *)

(** The report is modelled by the calls [create_pdf_bytes] makes on the
    [FPDF] object, in order; [Cell w h txt ln fill] is
    [pdf.cell(w, h, txt, ln=ln, fill=fill)], always with border 0. *)
Inductive pdf_call :=
  | Add_page
  | Set_font (family style : string) (size : Z)
  | Set_fill_color (r g b : Z)
  | Cell (w h : Z) (txt : string) (ln fill : bool)
  | Multi_cell (w h : Z) (txt : string)
  | Ln (h : Z).

Module Payload.
Record t := {
  location : string;
  type : string;
  fmt_price : string;
  area : Z;
  year_built : Z;
  road_width : string;
  bedrooms : Z;
  quality : string;
  breakdown : Breakdown
}.
End Payload.

(** [str(z)] for an int. *)
Definition str_int (z : Z) : string :=
  if z <? 0 then String.append "-" (string_of_list_ascii (decimal (- z)))
  else string_of_list_ascii (decimal z).

(** A Python [str] is held as its UTF-8 bytes. [latin1_ignore] is
    [s.encode('latin-1', 'ignore').decode('latin-1')]: the characters up to
    U+00FF stay (one byte, or the lead bytes C2 and C3 with their
    continuation byte), every other character goes with all its bytes.
    [pending] counts the continuation bytes still to come of the character
    being kept or dropped. *)
Fixpoint latin1_ignore_from (pending : nat) (keep : bool) (s : list ascii) : list ascii :=
  match s with
  | [] => []
  | b :: rest =>
      match pending with
      | S k => (if keep then [b] else []) ++ latin1_ignore_from k keep rest
      | O =>
          let n := nat_of_ascii b in
          if (n <? 128)%nat then b :: latin1_ignore_from 0 true rest
          else if ((n =? 194) || (n =? 195))%nat then b :: latin1_ignore_from 1 true rest
          else if (n <? 224)%nat then latin1_ignore_from 1 false rest
          else if (n <? 240)%nat then latin1_ignore_from 2 false rest
          else latin1_ignore_from 3 false rest
      end
  end.

Definition latin1_ignore (s : string) : string :=
  string_of_list_ascii (latin1_ignore_from 0 true (list_ascii_of_string s)).

(** The newline of the f-strings. *)
Definition newline : string := String (ascii_of_nat 10) EmptyString.

Definition text (parts : list string) : string := fold_right String.append "" parts.

(** [date_str] is [datetime.date.today().strftime('%d-%b-%Y')]. The result
    is the list of calls; the bytes [pdf.output] makes of them are FPDF's. *)
Definition create_pdf_bytes (date_str : string) (payload : Payload.t) : list pdf_call :=
  let residential := String.eqb (Payload.type payload) "Residential" in
  let clean_loc := latin1_ignore (Payload.location payload) in
  let bd := Payload.breakdown payload in
  [ Add_page;
    Set_font "Arial" "" 11;
    Cell 0 8 (text ["Date: "; date_str]) true false;
    Cell 0 8 (text ["Location: "; clean_loc; " ("; Payload.type payload; ")"]) true false;
    Ln 6;
    Set_fill_color 230 230 230;
    Set_font "Arial" "B" 12;
    Cell 0 10 (text ["Estimated Value: "; Payload.fmt_price payload]) true true;
    Ln 6;
    Set_font "Arial" "" 11;
    Multi_cell 0 7 (text ["Plot Area: "; str_int (Payload.area payload); " sq. yards";
                          newline; "Road Category: "; Payload.road_width payload]) ]
  ++ (if residential
      then [ Multi_cell 0 7 (text ["Bedrooms: "; str_int (Payload.bedrooms payload);
                                   newline; "Quality: "; Payload.quality payload]) ]
      else [])
  ++ [ Ln 6;
       Set_font "Arial" "B" 11;
       Cell 0 8 "Financial Breakdown" true false;
       Set_font "Arial" "" 10;
       Cell 120 7 "Land Value:" false false;
       Cell 0 7 (text ["PKR "; format_comma_0f (land bd)]) true false ]
  ++ (if residential
      then [ Cell 120 7 "Structure Value:" false false;
             Cell 0 7 (text ["PKR "; format_comma_0f (structure bd)]) true false ]
      else [])
  ++ (if (0 <? features bd)%float
      then [ Cell 120 7 "Feature Premiums:" false false;
             Cell 0 7 (text ["PKR "; format_comma_0f (features bd)]) true false ]
      else [])
  ++ [ Ln 8;
       Set_font "Arial" "I" 9;
       Multi_cell 0 6
         "Disclaimer: This is an algorithmic estimate for informational purposes only." ].

(** The submitted branch of [render], lines 297-329: the estimate, the
    formatted price and the report. *)
Record Rendered := {
  shown_price : string;
  shown_crore : float;
  shown_lakh : float;
  shown_breakdown : Breakdown;
  pdf_calls : list pdf_call
}.

Definition render_submitted (config : MarketConfig) (current : Z) (date_str : string)
    (variance : float) (f : Form.t) : result Rendered :=
  let params := form_params f in
  try result <- calculate_estimate config current params variance;
  let price := price result in
  let bd := breakdown result in
  let '(crore, lakh, fmt_price) := format_pk price in
  let payload :=
    {| Payload.location := location params; Payload.type := type params;
       Payload.fmt_price := fmt_price; Payload.area := area params;
       Payload.year_built := year_built params;
       Payload.road_width := road_width params;
       Payload.bedrooms := bedrooms params; Payload.quality := quality params;
       Payload.breakdown := bd |} in
  Ok {| shown_price := fmt_price; shown_crore := crore; shown_lakh := lakh;
        shown_breakdown := bd; pdf_calls := create_pdf_bytes date_str payload |}.

(** ** Notions used in Part II and Part IV *)

(** [lo <= x <= hi], as the float comparisons decide it. *)
Definition in_range (lo hi x : float) : Prop :=
  (lo <=? x)%float = true /\ (x <=? hi)%float = true.

(** [p'] asks at least as much as [p]: the same type, a location of no lower
    rate, a road and a quality of no lower factor, and no less area, no
    fewer bedrooms, no older a building and no fewer flags. *)
Definition request_le (config : MarketConfig) (p p' : Params) : Prop :=
  type p = type p'
  /\ dict_get BASE_RATES (location p) 50000 <= dict_get BASE_RATES (location p') 50000
  /\ (dict_get (ROAD_WIDTH_FACTORS config) (road_width p) 1.0
      <=? dict_get (ROAD_WIDTH_FACTORS config) (road_width p') 1.0)%float = true
  /\ (dict_get (QUALITY_MULTIPLIERS config) (quality p) 1.0
      <=? dict_get (QUALITY_MULTIPLIERS config) (quality p') 1.0)%float = true
  /\ area p <= area p' /\ bedrooms p <= bedrooms p' /\ year_built p <= year_built p'
  /\ (is_corner p = true -> is_corner p' = true)
  /\ (is_park p = true -> is_park p' = true)
  /\ (is_west_open p = true -> is_west_open p' = true).

(** A request that asks for more than [example_request "Residential" 2010]. *)
Definition larger_request : Params := {|
  location := "DHA Phase 8"; area := 500; type := "Residential";
  road_width := "Wide Road (60-80ft)"; year_built := 2020; bedrooms := 5;
  quality := "A (Premium)";
  is_corner := true; is_park := false; is_west_open := true
|}.

(** An int beyond the binary64 range: its nearest float would be 2^1024 or
    more. *)
Definition too_large (z : Z) : Prop := 2 ^ 1024 - 2 ^ 970 <= Z.abs z.

(** A character of a grouped numeral: a decimal digit or the separator. *)
Definition is_numeral_char (c : ascii) : bool :=
  Ascii.eqb c ","%char
  || ((48 <=? nat_of_ascii c)%nat && (nat_of_ascii c <=? 57)%nat).

(** One-byte characters only. *)
Definition is_ascii (s : string) : Prop :=
  Forall (fun c => (nat_of_ascii c < 128)%nat) (list_ascii_of_string s).

(** A commercial submission; the hidden structure widgets hold what they
    last showed. *)
Definition example_form : Form.t := {|
  Form.zone := "Affordable"; Form.location := "Korangi Industrial";
  Form.area := 1000; Form.prop_type := "Commercial";
  Form.road_width := "Wide Road (60-80ft)"; Form.year_built := 2015;
  Form.bedrooms := 3; Form.quality := "A (Premium)";
  Form.is_corner := true; Form.is_park := false; Form.is_west := false
|}.

(** [m * 2^e] as a pair, well placed for [binary_round_aux]. *)
Definition aligned (m e : Z) : Prop :=
  0 < m /\ e <= fexp prec emax (Zdigits2 m + e).

(** [m1 * 2^e1 <= m2 * 2^e2], on integers. *)
Definition val_le (m1 e1 m2 e2 : Z) : Prop :=
  m1 * 2 ^ (e1 - Z.min e1 e2) <= m2 * 2 ^ (e2 - Z.min e1 e2).


(** * Part II: binary64 arithmetic

    The rounding of [SpecFloat], characterised with [rne]; from it, that
    rounding is monotone, that products and sums of non-negative floats are
    non-negative, and that multiplying by a non-negative float preserves
    the order. *)

(** ** Rounding to nearest even *)

Lemma pow2_pos (n : Z) : 0 <= n -> 0 < 2 ^ n.
Proof. intros. apply Z.pow_pos_nonneg; lia. Qed.

Lemma rne_bounds (m n : Z) : 0 <= n -> m / 2 ^ n <= rne m n <= m / 2 ^ n + 1.
Proof.
  intros Hn. unfold rne.
  destruct (2 * (m mod 2 ^ n) <? 2 ^ n); [lia|].
  destruct (2 * (m mod 2 ^ n) =? 2 ^ n); [|lia].
  destruct (Z.even (m / 2 ^ n)); lia.
Qed.

Lemma rne_mono (m1 m2 n : Z) : 0 <= n -> m1 <= m2 -> rne m1 n <= rne m2 n.
Proof.
  intros Hn Hm. pose proof (pow2_pos n Hn) as Hp.
  pose proof (Z.div_le_mono m1 m2 (2 ^ n) Hp Hm) as Hq.
  destruct (Z.eq_dec (m1 / 2 ^ n) (m2 / 2 ^ n)) as [Heq|Hne].
  - pose proof (Z.div_mod m1 (2 ^ n) ltac:(lia)) as H1.
    pose proof (Z.div_mod m2 (2 ^ n) ltac:(lia)) as H2.
    assert (Hr : m1 mod 2 ^ n <= m2 mod 2 ^ n) by (rewrite Heq in H1; nia).
    unfold rne. rewrite Heq.
    destruct (Z.ltb_spec (2 * (m1 mod 2 ^ n)) (2 ^ n)),
             (Z.ltb_spec (2 * (m2 mod 2 ^ n)) (2 ^ n)),
             (Z.eqb_spec (2 * (m1 mod 2 ^ n)) (2 ^ n)),
             (Z.eqb_spec (2 * (m2 mod 2 ^ n)) (2 ^ n)),
             (Z.even (m2 / 2 ^ n)); lia.
  - pose proof (rne_bounds m1 n Hn). pose proof (rne_bounds m2 n Hn). lia.
Qed.

Lemma rne_exact (q n : Z) : 0 <= n -> rne (q * 2 ^ n) n = q.
Proof.
  intros Hn. pose proof (pow2_pos n Hn) as Hp. unfold rne.
  rewrite Z.div_mul by lia. rewrite Z.mod_mul by lia.
  destruct (Z.ltb_spec (2 * 0) (2 ^ n)); lia.
Qed.

Lemma rne_shift (m n k : Z) : 0 <= n -> 0 <= k -> rne (m * 2 ^ k) (n + k) = rne m n.
Proof.
  intros Hn Hk. pose proof (pow2_pos n Hn) as Hpn. pose proof (pow2_pos k Hk) as Hpk.
  unfold rne. rewrite Z.pow_add_r by lia.
  rewrite Z.div_mul_cancel_r by lia.
  rewrite Z.mul_mod_distr_r by lia.
  replace (2 * (m mod 2 ^ n * 2 ^ k) <? 2 ^ n * 2 ^ k) with (2 * (m mod 2 ^ n) <? 2 ^ n).
  2:{ destruct (Z.ltb_spec (2 * (m mod 2 ^ n)) (2 ^ n)),
               (Z.ltb_spec (2 * (m mod 2 ^ n * 2 ^ k)) (2 ^ n * 2 ^ k)); try reflexivity; nia. }
  replace (2 * (m mod 2 ^ n * 2 ^ k) =? 2 ^ n * 2 ^ k) with (2 * (m mod 2 ^ n) =? 2 ^ n).
  2:{ destruct (Z.eqb_spec (2 * (m mod 2 ^ n)) (2 ^ n)),
               (Z.eqb_spec (2 * (m mod 2 ^ n * 2 ^ k)) (2 ^ n * 2 ^ k)); try reflexivity; nia. }
  reflexivity.
Qed.

Lemma rne_nonneg (m n : Z) : 0 <= n -> 0 <= m -> 0 <= rne m n.
Proof.
  intros Hn Hm. pose proof (rne_bounds m n Hn).
  pose proof (Z.div_pos m (2 ^ n) Hm (pow2_pos n Hn)). lia.
Qed.

(** digits *)
Lemma digits2_pos_bounds (p : positive) :
  2 ^ (Z.pos (digits2_pos p) - 1) <= Z.pos p < 2 ^ Z.pos (digits2_pos p).
Proof.
  induction p as [p IH|p IH|]; cbn [digits2_pos].
  - rewrite Pos2Z.inj_succ. replace (Z.succ (Z.pos (digits2_pos p)) - 1) with (Z.pos (digits2_pos p)) by lia.
    rewrite Z.pow_succ_r by lia.
    replace (Z.pos (digits2_pos p)) with (Z.succ (Z.pos (digits2_pos p) - 1)) at 1 by lia.
    rewrite Z.pow_succ_r by lia. lia.
  - rewrite Pos2Z.inj_succ. replace (Z.succ (Z.pos (digits2_pos p)) - 1) with (Z.pos (digits2_pos p)) by lia.
    rewrite Z.pow_succ_r by lia.
    replace (Z.pos (digits2_pos p)) with (Z.succ (Z.pos (digits2_pos p) - 1)) at 1 by lia.
    rewrite Z.pow_succ_r by lia. lia.
  - cbn. lia.
Qed.

Lemma digits_le (m k : Z) : 0 < m -> 0 <= k -> m < 2 ^ k -> Zdigits2 m <= k.
Proof.
  intros Hm Hk Hlt. destruct m as [|p|p]; try lia. cbn [Zdigits2].
  pose proof (digits2_pos_bounds p) as [Hlo _].
  destruct (Z_le_gt_dec (Z.pos (digits2_pos p)) k) as [|Hgt]; [assumption|].
  exfalso. assert (2 ^ k <= 2 ^ (Z.pos (digits2_pos p) - 1)) by (apply Z.pow_le_mono_r; lia).
  lia.
Qed.

Lemma digits_gt (m k : Z) : 0 <= k -> 2 ^ k <= m -> k < Zdigits2 m.
Proof.
  intros Hk Hle. pose proof (pow2_pos k Hk).
  destruct m as [|p|p]; try lia. cbn [Zdigits2].
  pose proof (digits2_pos_bounds p) as [_ Hhi].
  destruct (Z_lt_le_dec k (Z.pos (digits2_pos p))) as [|Hge]; [assumption|].
  exfalso. assert (2 ^ Z.pos (digits2_pos p) <= 2 ^ k) by (apply Z.pow_le_mono_r; lia).
  lia.
Qed.

Lemma digits_bounds (m : Z) : 0 < m -> 2 ^ (Zdigits2 m - 1) <= m < 2 ^ Zdigits2 m.
Proof. intros Hm. destruct m as [|p|p]; try lia. apply digits2_pos_bounds. Qed.

Lemma digits_pos (m : Z) : 0 < m -> 0 < Zdigits2 m.
Proof. intros Hm. destruct m as [|p|p]; try lia. cbn. lia. Qed.

(** shifting *)
Lemma shr_1_spec (m : Z) (r s : bool) :
  0 <= m -> shr_1 (Build_shr_record m r s) = Build_shr_record (Z.div2 m) (Z.odd m) (r || s).
Proof. intros Hm. destruct m as [|[p|p|]|p]; try lia; reflexivity. Qed.

Lemma iter_pos_nat {A} (f : A -> A) (p : positive) (x : A) :
  SpecFloat.iter_pos f p x = Nat.iter (Pos.to_nat p) f x.
Proof.
  revert x. induction p as [p IH|p IH|]; intros x; cbn [SpecFloat.iter_pos].
  - rewrite !IH, Pos2Nat.inj_xI. rewrite <- Nat.iter_add.
    replace (Pos.to_nat p + Pos.to_nat p)%nat with (2 * Pos.to_nat p)%nat by lia.
    rewrite <- Nat.iter_succ_r. reflexivity.
  - rewrite !IH, Pos2Nat.inj_xO. rewrite <- Nat.iter_add.
    replace (Pos.to_nat p + Pos.to_nat p)%nat with (2 * Pos.to_nat p)%nat by lia.
    reflexivity.
  - reflexivity.
Qed.

Lemma iter_shr_1 (m : Z) (k : nat) :
  0 <= m ->
  Nat.iter (S k) shr_1 (Build_shr_record m false false)
  = Build_shr_record (m / 2 ^ Z.of_nat (S k)) (Z.odd (m / 2 ^ Z.of_nat k))
      (negb (m mod 2 ^ Z.of_nat k =? 0)).
Proof.
  intros Hm. induction k as [|k IH].
  - cbn [Nat.iter]. rewrite shr_1_spec by assumption.
    rewrite Z.div2_div. change (2 ^ Z.of_nat 1) with 2. change (2 ^ Z.of_nat 0) with 1.
    rewrite Z.div_1_r, Z.mod_1_r. reflexivity.
  - change (Nat.iter (S (S k)) shr_1 ?x) with (shr_1 (Nat.iter (S k) shr_1 x)).
    rewrite IH. pose proof (pow2_pos (Z.of_nat k) ltac:(lia)) as Hp.
    pose proof (pow2_pos (Z.of_nat (S k)) ltac:(lia)) as Hp'.
    rewrite shr_1_spec by (apply Z.div_pos; lia).
    rewrite Z.div2_div, Z.div_div by lia.
    replace (2 ^ Z.of_nat (S k) * 2) with (2 ^ Z.of_nat (S (S k)))
      by (rewrite (Nat2Z.inj_succ (S k)), Z.pow_succ_r; lia).
    f_equal.
    replace (2 ^ Z.of_nat (S k)) with (2 ^ Z.of_nat k * 2)
      by (rewrite (Nat2Z.inj_succ k), Z.pow_succ_r; lia).
    rewrite Z.rem_mul_r by lia. rewrite Zmod_odd.
    pose proof (Z.mod_pos_bound m (2 ^ Z.of_nat k) Hp).
    destruct (Z.odd (m / 2 ^ Z.of_nat k)), (Z.eqb_spec (m mod 2 ^ Z.of_nat k) 0);
      cbn [orb negb]; symmetry.
    + apply negb_true_iff, Z.eqb_neq. lia.
    + apply negb_true_iff, Z.eqb_neq. lia.
    + apply negb_false_iff, Z.eqb_eq. lia.
    + apply negb_true_iff, Z.eqb_neq. lia.
Qed.

Lemma round_after_shr (m : Z) (p : positive) :
  0 <= m ->
  let mrs := SpecFloat.iter_pos shr_1 p (Build_shr_record m false false) in
  round_nearest_even (shr_m mrs) (loc_of_shr_record mrs) = rne m (Z.pos p).
Proof.
  intros Hm mrs. subst mrs. rewrite iter_pos_nat.
  destruct (Pos.to_nat p) as [|k] eqn:Hk; [lia|].
  rewrite iter_shr_1 by assumption.
  assert (Hp : Z.pos p = Z.of_nat (S k)) by lia.
  rewrite Hp. cbn [shr_m loc_of_shr_record].
  pose proof (pow2_pos (Z.of_nat k) ltac:(lia)) as Hpk.
  unfold rne.
  assert (Hrem : m mod 2 ^ Z.of_nat (S k)
                 = m mod 2 ^ Z.of_nat k
                   + 2 ^ Z.of_nat k * (if Z.odd (m / 2 ^ Z.of_nat k) then 1 else 0)).
  { replace (2 ^ Z.of_nat (S k)) with (2 ^ Z.of_nat k * 2)
      by (rewrite (Nat2Z.inj_succ k), Z.pow_succ_r; lia).
    rewrite Z.rem_mul_r by lia. rewrite Zmod_odd. reflexivity. }
  assert (Hpow : 2 ^ Z.of_nat (S k) = 2 * 2 ^ Z.of_nat k)
    by (rewrite (Nat2Z.inj_succ k), Z.pow_succ_r; lia).
  pose proof (Z.mod_pos_bound m (2 ^ Z.of_nat k) Hpk) as Hb.
  rewrite Hrem.
  destruct (Z.odd (m / 2 ^ Z.of_nat k)), (Z.eqb_spec (m mod 2 ^ Z.of_nat k) 0);
    cbn [negb round_nearest_even];
    repeat match goal with
           | |- context [?a <? ?b] => destruct (Z.ltb_spec a b); try lia
           | |- context [?a =? ?b] => destruct (Z.eqb_spec a b); try lia
           end; try reflexivity.
Qed.

Lemma fexp_eq (x : Z) : fexp prec emax x = Z.max (x - 53) (-1074).
Proof. reflexivity. Qed.

Lemma shr_fexp_rounded (M E : Z) :
  0 <= M <= 2 ^ 53 -> -1074 <= E ->
  let '(mrs, e) := shr_fexp prec emax M E loc_Exact in
  (shr_m mrs, e) = if M =? 2 ^ 53 then (2 ^ 52, E + 1) else (M, E).
Proof.
  intros HM HE. unfold shr_fexp. rewrite fexp_eq. cbn [shr_record_of_loc].
  destruct (Z.eqb_spec M (2 ^ 53)) as [->|Hne].
  - vm_compute (Zdigits2 (2 ^ 53)).
    replace (Z.max (54 + E - 53) (-1074) - E) with 1 by lia.
    cbn [shr SpecFloat.iter_pos]. rewrite shr_1_spec by lia. cbn [shr_m].
    reflexivity.
  - assert (Hd : Zdigits2 M <= 53).
    { destruct (Z.eq_dec M 0) as [->|]; [cbn; lia|]. apply digits_le; lia. }
    destruct (Z.max (Zdigits2 M + E - 53) (-1074) - E) as [|p|p] eqn:Hn; try lia;
      reflexivity.
Qed.

Lemma rne_upper (m n : Z) :
  0 < m -> 0 <= n -> Zdigits2 m - 53 <= n -> rne m n <= 2 ^ 53.
Proof.
  intros Hm Hn Hd. pose proof (rne_bounds m n Hn) as [_ Hhi].
  pose proof (digits_bounds m Hm) as [_ Hlt]. pose proof (digits_pos m Hm).
  assert (2 ^ Zdigits2 m <= 2 ^ (n + 53)) by (apply Z.pow_le_mono_r; lia).
  rewrite Z.pow_add_r in * by lia.
  assert (m / 2 ^ n < 2 ^ 53).
  { apply Z.div_lt_upper_bound; [apply pow2_pos; lia|lia]. }
  lia.
Qed.

Lemma binary_round_aux_spec (s : bool) (m e : Z) :
  0 < m ->
  let E := fexp prec emax (Zdigits2 m + e) in
  e <= E ->
  binary_round_aux prec emax s m e loc_Exact = finish s (rne m (E - e)) E.
Proof.
  intros Hm E HE.
  assert (HEmin : -1074 <= E) by (unfold E; rewrite fexp_eq; lia).
  assert (Hup : rne m (E - e) <= 2 ^ 53).
  { apply rne_upper; [lia|lia|]. unfold E. rewrite fexp_eq. lia. }
  assert (Hlo : 0 <= rne m (E - e)) by (apply rne_nonneg; lia).
  unfold binary_round_aux.
  assert (Hfirst : let '(mrs, e') := shr_fexp prec emax m e loc_Exact in
                   round_nearest_even (shr_m mrs) (loc_of_shr_record mrs) = rne m (E - e)
                   /\ e' = E).
  { unfold shr_fexp. fold E. cbn [shr_record_of_loc].
    destruct (E - e) as [|p|p] eqn:Hn; try lia; cbn [shr].
    - cbn [shr_m loc_of_shr_record round_nearest_even]. split; [|lia].
      unfold rne. change (2 ^ 0) with 1. rewrite Z.div_1_r, Z.mod_1_r. reflexivity.
    - split; [|lia]. apply round_after_shr. lia. }
  destruct (shr_fexp prec emax m e loc_Exact) as [mrs' e'].
  destruct Hfirst as [-> ->].
  pose proof (shr_fexp_rounded (rne m (E - e)) E ltac:(lia) HEmin) as Hsecond.
  destruct (shr_fexp prec emax (rne m (E - e)) E loc_Exact) as [mrs'' e''].
  unfold finish.
  destruct (Z.eqb_spec (rne m (E - e)) 0) as [H0|H0].
  - rewrite H0 in Hsecond. cbn in Hsecond. injection Hsecond as -> ->. reflexivity.
  - destruct (Z.eqb_spec (rne m (E - e)) (2 ^ 53)) as [H53|H53].
    + injection Hsecond as -> ->. reflexivity.
    + injection Hsecond as -> ->.
      destruct (rne m (E - e)) as [|M|M] eqn:HM; try lia. reflexivity.
Qed.

Lemma pos_compare_cont_le (M1 M2 : Z) :
  0 < M1 -> M1 <= M2 ->
  Pos.compare_cont Eq (Z.to_pos M1) (Z.to_pos M2) <> Gt.
Proof.
  intros H1 H2. change (Pos.compare_cont Eq ?p ?q) with (Pos.compare p q).
  rewrite <- Z2Pos.inj_compare by lia. destruct (Z.compare_spec M1 M2); congruence || lia.
Qed.

Lemma finish_le (M1 E1 M2 E2 : Z) :
  0 <= M1 <= 2 ^ 53 -> 0 <= M2 <= 2 ^ 53 ->
  (E1 = E2 /\ M1 <= M2) \/ (E1 < E2 /\ 2 ^ 52 <= M2) ->
  SFleb (finish false M1 E1) (finish false M2 E2) = true.
Proof.
  intros HM1 HM2 Hcase. unfold finish.
  destruct (Z.eqb_spec M1 0) as [H10|H10].
  { destruct (M2 =? 0), (M2 =? 2 ^ 53), (E2 + 1 <=? 971), (E2 <=? 971); reflexivity. }
  destruct (Z.eqb_spec M2 0) as [H20|H20]; [lia|].
  assert (Hc52 : forall M, 2 ^ 52 <= M ->
            Pos.compare_cont Eq (2 ^ 52)%positive (Z.to_pos M) <> Gt).
  { intros M HM. apply (pos_compare_cont_le (2 ^ 52) M); lia. }
  destruct (Z.eqb_spec M1 (2 ^ 53)) as [H1|H1], (Z.eqb_spec M2 (2 ^ 53)) as [H2|H2];
    repeat match goal with
           | |- context [?a <=? ?b] => destruct (Z.leb_spec a b); try lia
           end;
    unfold SFleb, SFcompare; try reflexivity;
    repeat match goal with
           | |- context [(?a ?= ?b)%Z] => destruct (Z.compare_spec a b); try lia
           end; try reflexivity.
  - specialize (Hc52 M2 ltac:(lia)).
    destruct (Pos.compare_cont Eq (2 ^ 52)%positive (Z.to_pos M2)); congruence.
  - pose proof (pos_compare_cont_le M1 M2 ltac:(lia) ltac:(lia)) as Hc.
    destruct (Pos.compare_cont Eq (Z.to_pos M1) (Z.to_pos M2)); congruence.
Qed.

Lemma round_mono (m1 e1 m2 e2 : Z) :
  0 < m1 -> 0 < m2 ->
  e1 <= fexp prec emax (Zdigits2 m1 + e1) ->
  e2 <= fexp prec emax (Zdigits2 m2 + e2) ->
  e1 <= e2 -> m1 <= m2 * 2 ^ (e2 - e1) ->
  SFleb (binary_round_aux prec emax false m1 e1 loc_Exact)
        (binary_round_aux prec emax false m2 e2 loc_Exact) = true.
Proof.
  intros Hm1 Hm2 He1 He2 He Hle.
  rewrite !binary_round_aux_spec by assumption.
  rewrite !fexp_eq. rewrite fexp_eq in He1, He2.
  set (d1 := Zdigits2 m1) in *. set (d2 := Zdigits2 m2) in *.
  set (E1 := Z.max (d1 + e1 - 53) (-1074)) in *.
  set (E2 := Z.max (d2 + e2 - 53) (-1074)) in *.
  pose proof (digits_bounds m1 Hm1) as [Hlo1 Hhi1]. fold d1 in Hlo1, Hhi1.
  pose proof (digits_bounds m2 Hm2) as [Hlo2 Hhi2]. fold d2 in Hlo2, Hhi2.
  pose proof (digits_pos m1 Hm1) as Hd1. fold d1 in Hd1.
  pose proof (digits_pos m2 Hm2) as Hd2. fold d2 in Hd2.
  pose proof (pow2_pos (e2 - e1) ltac:(lia)) as Hpk.
  assert (Hd : d1 <= d2 + (e2 - e1)).
  { apply digits_le; [lia|lia|]. rewrite Z.pow_add_r by lia. nia. }
  assert (HE : E1 <= E2) by lia.
  assert (HM1 : 0 <= rne m1 (E1 - e1) <= 2 ^ 53).
  { split; [apply rne_nonneg; lia|apply rne_upper; lia]. }
  assert (HM2 : 0 <= rne m2 (E2 - e2) <= 2 ^ 53).
  { split; [apply rne_nonneg; lia|apply rne_upper; lia]. }
  apply finish_le; try assumption.
  destruct (Z.eq_dec E1 E2) as [Heq|Hne]; [left|right].
  - split; [assumption|].
    rewrite <- (rne_shift m2 (E2 - e2) (e2 - e1)) by lia.
    replace (E2 - e2 + (e2 - e1)) with (E1 - e1) by lia.
    apply rne_mono; lia.
  - split; [lia|].
    assert (Hn2 : E2 - e2 = d2 - 53) by lia.
    rewrite Hn2. rewrite <- (rne_exact (2 ^ 52) (d2 - 53)) at 1 by lia.
    apply rne_mono; [lia|].
    rewrite <- Z.pow_add_r by lia. replace (52 + (d2 - 53)) with (d2 - 1) by lia.
    assumption.
Qed.

(** ** Signs *)

Lemma sf_nonneg_cases (x : spec_float) :
  sf_nonneg x <->
  (exists s, x = S754_zero s) \/ x = S754_infinity false
  \/ exists m e, x = S754_finite false m e.
Proof.
  unfold sf_nonneg. split.
  - destruct x as [s|[|]| |[|] m e]; cbn; try discriminate; eauto.
  - intros [[s ->]|[->|(m & e & ->)]]; reflexivity.
Qed.

Lemma iter_shr_1_nonneg (k : nat) (mrs : shr_record) :
  0 <= shr_m mrs -> 0 <= shr_m (Nat.iter k shr_1 mrs).
Proof.
  intros H. induction k as [|k IH]; [exact H|].
  change (Nat.iter (S k) shr_1 mrs) with (shr_1 (Nat.iter k shr_1 mrs)).
  destruct (Nat.iter k shr_1 mrs) as [m r s]. cbn [shr_m] in IH.
  rewrite shr_1_spec by assumption. cbn [shr_m].
  rewrite Z.div2_div. apply Z.div_pos; lia.
Qed.

Lemma shr_fexp_nonneg (m e : Z) (l : SpecFloat.location) :
  0 <= m -> 0 <= shr_m (fst (shr_fexp prec emax m e l)).
Proof.
  intros Hm. unfold shr_fexp, shr.
  assert (H0 : 0 <= shr_m (shr_record_of_loc m l)) by (destruct l as [|[| |]]; exact Hm).
  destruct (fexp prec emax (Zdigits2 m + e) - e); cbn [fst]; try assumption.
  rewrite iter_pos_nat. apply iter_shr_1_nonneg. assumption.
Qed.

Lemma round_nearest_even_nonneg (m : Z) (l : SpecFloat.location) :
  0 <= m -> 0 <= round_nearest_even m l.
Proof.
  intros Hm. destruct l as [|[| |]]; cbn [round_nearest_even]; try lia.
  destruct (Z.even m); lia.
Qed.

Lemma binary_round_aux_nonneg (m e : Z) (l : SpecFloat.location) :
  0 <= m -> sf_nonneg (binary_round_aux prec emax false m e l).
Proof.
  intros Hm. unfold binary_round_aux.
  pose proof (shr_fexp_nonneg m e l Hm) as H1.
  destruct (shr_fexp prec emax m e l) as [mrs' e']. cbn [fst] in H1.
  pose proof (shr_fexp_nonneg _ e' loc_Exact
                (round_nearest_even_nonneg _ (loc_of_shr_record mrs') H1)) as H2.
  destruct (shr_fexp prec emax _ e' loc_Exact) as [mrs'' e'']. cbn [fst] in H2.
  destruct (shr_m mrs'') as [|p|p]; try lia; [reflexivity|].
  destruct (e'' <=? emax - prec); reflexivity.
Qed.

Lemma SFmul_nonneg (x : spec_float) (my : positive) (ey : Z) :
  sf_nonneg x -> sf_nonneg (SFmul prec emax x (S754_finite false my ey)).
Proof.
  intros [[s ->]|[->|(m & e & ->)]]%sf_nonneg_cases; cbn [SFmul xorb].
  - reflexivity.
  - reflexivity.
  - apply binary_round_aux_nonneg. lia.
Qed.

Lemma SFadd_nonneg (x y : spec_float) :
  sf_nonneg x -> sf_nonneg y -> sf_nonneg (SFadd prec emax x y).
Proof.
  intros [[sx ->]|[->|(mx & ex & ->)]]%sf_nonneg_cases
         [[sy ->]|[->|(my & ey & ->)]]%sf_nonneg_cases; cbn [SFadd];
    try reflexivity.
  - destruct sx, sy; reflexivity.
  - cbn [cond_Zopp]. unfold binary_normalize.
    destruct (shl_align mx ex (Z.min ex ey)) as [mx' ex'].
    destruct (shl_align my ey (Z.min ex ey)) as [my' ey']. cbn [fst].
    change (Z.pos mx' + Z.pos my') with (Z.pos (mx' + my')).
    unfold binary_round.
    destruct (shl_align (mx' + my') _ _) as [mz ez].
    apply binary_round_aux_nonneg. lia.
Qed.

(** ** Order *)

Lemma canonical_cases (m : positive) (e : Z) :
  bounded prec emax m e = true ->
  Zdigits2 (Z.pos m) <= 53 /\ -1074 <= e /\ (Zdigits2 (Z.pos m) = 53 \/ e = -1074).
Proof.
  unfold bounded, canonical_mantissa. intros [Hc _]%andb_true_iff.
  apply Z.eqb_eq in Hc. rewrite fexp_eq in Hc. cbn [Zdigits2]. lia.
Qed.

Lemma digits_mul_ge (m1 m2 : Z) :
  0 < m1 -> 0 < m2 -> Zdigits2 m1 + Zdigits2 m2 - 1 <= Zdigits2 (m1 * m2).
Proof.
  intros H1 H2.
  pose proof (digits_bounds m1 H1) as [Hlo1 _]. pose proof (digits_bounds m2 H2) as [Hlo2 _].
  pose proof (digits_pos m1 H1). pose proof (digits_pos m2 H2).
  assert (Zdigits2 m1 + Zdigits2 m2 - 2 < Zdigits2 (m1 * m2)); [|lia].
  apply digits_gt; [lia|].
  replace (Zdigits2 m1 + Zdigits2 m2 - 2) with ((Zdigits2 m1 - 1) + (Zdigits2 m2 - 1)) by lia.
  rewrite Z.pow_add_r by lia.
  apply Z.mul_le_mono_nonneg; try assumption; apply Z.lt_le_incl, pow2_pos; lia.
Qed.

Lemma product_exponent (m1 m2 : positive) (e1 e2 : Z) :
  bounded prec emax m1 e1 = true -> bounded prec emax m2 e2 = true ->
  e1 + e2 <= fexp prec emax (Zdigits2 (Z.pos (m1 * m2)) + (e1 + e2)).
Proof.
  intros H1%canonical_cases H2%canonical_cases. rewrite fexp_eq.
  pose proof (digits_mul_ge (Z.pos m1) (Z.pos m2) ltac:(lia) ltac:(lia)) as Hd.
  pose proof (digits_pos (Z.pos m1) ltac:(lia)). pose proof (digits_pos (Z.pos m2) ltac:(lia)).
  rewrite Pos2Z.inj_mul. lia.
Qed.

Lemma finite_le_values (ma mb : positive) (ea eb : Z) :
  bounded prec emax ma ea = true -> bounded prec emax mb eb = true ->
  SFleb (S754_finite false ma ea) (S754_finite false mb eb) = true ->
  ea <= eb /\ Z.pos ma <= Z.pos mb * 2 ^ (eb - ea).
Proof.
  intros Ha%canonical_cases Hb%canonical_cases. unfold SFleb, SFcompare.
  destruct (Z.compare_spec ea eb) as [->|Hlt|Hgt]; try discriminate.
  - intros Hc. split; [lia|]. rewrite Z.sub_diag. change (2 ^ 0) with 1.
    change (Pos.compare_cont Eq ma mb) with (Pos.compare ma mb) in Hc.
    destruct (Pos.compare_spec ma mb); try discriminate; lia.
  - intros _. split; [lia|].
    pose proof (digits_bounds (Z.pos ma) ltac:(lia)) as [_ Hhi].
    pose proof (digits_bounds (Z.pos mb) ltac:(lia)) as [Hlo _].
    assert (Hdb : Zdigits2 (Z.pos mb) = 53) by lia. rewrite Hdb in Hlo.
    assert (2 ^ Zdigits2 (Z.pos ma) <= 2 ^ 53) by (apply Z.pow_le_mono_r; lia).
    assert (2 ^ 1 <= 2 ^ (eb - ea)) by (apply Z.pow_le_mono_r; lia).
    change (2 ^ (53 - 1)) with 4503599627370496 in Hlo.
    change (2 ^ 53) with 9007199254740992 in *. change (2 ^ 1) with 2 in *.
    nia.
Qed.

Lemma SFmul_le_mono_l (t a b : spec_float) :
  valid_binary t = true -> valid_binary a = true -> valid_binary b = true ->
  sf_nonneg t ->
  (exists ma ea, a = S754_finite false ma ea) ->
  (exists mb eb, b = S754_finite false mb eb) ->
  SFleb a b = true ->
  SFleb (SFmul prec emax t a) (SFmul prec emax t b) = true.
Proof.
  intros Vt Va Vb Ht (ma & ea & ->) (mb & eb & ->) Hab.
  apply sf_nonneg_cases in Ht as [[s ->]|[->|(mt & et & ->)]]; cbn [SFmul xorb].
  - destruct s; reflexivity.
  - reflexivity.
  - cbn [valid_binary] in Vt, Va, Vb.
    destruct (finite_le_values _ _ _ _ Va Vb Hab) as [He Hm].
    apply round_mono.
    + lia.
    + lia.
    + apply product_exponent; assumption.
    + apply product_exponent; assumption.
    + lia.
    + replace (et + eb - (et + ea)) with (eb - ea) by lia.
      rewrite !Pos2Z.inj_mul. pose proof (pow2_pos (eb - ea) ltac:(lia)). nia.
Qed.

(** ** Primitive floats *)

Lemma nonneg_spec (x : float) : (0 <=? x)%float = true <-> sf_nonneg (Prim2SF x).
Proof. rewrite leb_spec. reflexivity. Qed.

Lemma pos_finite_spec (y : float) :
  (0 <? y)%float = true -> (y <? infinity)%float = true ->
  exists m e, Prim2SF y = S754_finite false m e.
Proof.
  rewrite !ltb_spec. change (Prim2SF 0) with (S754_zero false).
  change (Prim2SF infinity) with (S754_infinity false).
  destruct (Prim2SF y) as [s|[|]| |[|] m e]; cbn; try discriminate; eauto.
Qed.

Lemma mul_nonneg (x y : float) :
  (0 <=? x)%float = true -> (0 <? y)%float = true -> (y <? infinity)%float = true ->
  (0 <=? x * y)%float = true.
Proof.
  intros Hx%nonneg_spec Hy Hy'. destruct (pos_finite_spec y Hy Hy') as (m & e & Hm).
  apply nonneg_spec. rewrite mul_spec, Hm. apply SFmul_nonneg. assumption.
Qed.

Lemma add_nonneg (x y : float) :
  (0 <=? x)%float = true -> (0 <=? y)%float = true -> (0 <=? x + y)%float = true.
Proof.
  intros Hx%nonneg_spec Hy%nonneg_spec. apply nonneg_spec. rewrite add_spec.
  apply SFadd_nonneg; assumption.
Qed.

Lemma mul_le_mono_l (t a b : float) :
  (0 <=? t)%float = true -> (0 <? a)%float = true -> (a <=? b)%float = true ->
  (b <? infinity)%float = true ->
  (t * a <=? t * b)%float = true.
Proof.
  intros Ht%nonneg_spec Ha Hab Hb.
  rewrite leb_spec, !mul_spec.
  rewrite leb_spec in Hab. rewrite ltb_spec in Ha, Hb.
  change (Prim2SF 0) with (S754_zero false) in Ha.
  change (Prim2SF infinity) with (S754_infinity false) in Hb.
  apply SFmul_le_mono_l; try apply Prim2SF_valid; try assumption.
  - destruct (Prim2SF a) as [s|[|]| |[|] m e]; try discriminate; eauto.
    destruct (Prim2SF b) as [s|[|]| |[|] m e]; discriminate.
  - destruct (Prim2SF a) as [s|[|]| |[|] m e]; try discriminate;
      destruct (Prim2SF b) as [s'|[|]| |[|] m' e']; try discriminate; eauto.
Qed.

(** * Part III: properties of the engine *)

(** ** The dictionaries *)

Lemma dict_get_Some {V} (d : gmap string V) key default v :
  d !! key = Some v -> dict_get d key default = v.
Proof. unfold dict_get. intros ->. reflexivity. Qed.

Lemma dict_get_None {V} (d : gmap string V) key default :
  d !! key = None -> dict_get d key default = default.
Proof. unfold dict_get. intros ->. reflexivity. Qed.

Lemma BASE_RATES_fit : map_Forall (fun _ rate => fits_float rate = true) BASE_RATES.
Proof. apply (bool_decide_unpack _). vm_compute. exact I. Qed.

Lemma BASE_RATES_not_default : map_Forall (fun _ rate => rate <> 50000) BASE_RATES.
Proof. apply (bool_decide_unpack _). vm_compute. exact I. Qed.

Lemma base_rate_fits (loc : string) : fits_float (dict_get BASE_RATES loc 50000) = true.
Proof.
  unfold dict_get. destruct (BASE_RATES !! loc) as [rate|] eqn:Hloc.
  - exact (BASE_RATES_fit loc rate Hloc).
  - reflexivity.
Qed.

(** ** Outcomes *)

Lemma Ok_inj {A} (a b : A) : Ok a = Ok b -> a = b.
Proof. intros [= ->]. reflexivity. Qed.

Lemma float_of_int_fits (z : Z) : fits_float z = true -> float_of_int z = Ok (round_int z).
Proof. unfold float_of_int. intros ->. reflexivity. Qed.

Lemma float_of_int_Ok (z : Z) (f : float) :
  float_of_int z = Ok f -> fits_float z = true /\ f = round_int z.
Proof.
  unfold float_of_int. destruct (fits_float z); [|discriminate].
  intros <-%Ok_inj. split; reflexivity.
Qed.

(** ** What [calculate_estimate] returns *)

(** Every field of a returned estimate, read off the code. *)
Lemma calculate_estimate_inv (config : MarketConfig) (current : Z) (p : Params)
    (variance : float) (r : Estimate) :
  calculate_estimate config current p variance = Ok r ->
  let b := breakdown r in
  fits_float (area p) = true
  /\ base_rate b = dict_get BASE_RATES (location p) 50000
  /\ land b = land_value_of config p
  /\ (if String.eqb (type p) "Residential"
      then fits_float (bedrooms p * ROOM_PREMIUM config) = true
           /\ depreciation_factor b = calculate_depreciation_factor current (year_built p)
           /\ structure b =
                (round_int (bedrooms p * ROOM_PREMIUM config)
                 * dict_get (QUALITY_MULTIPLIERS config) (quality p) 1.0
                 * depreciation_factor b)%float
      else depreciation_factor b = 1.0%float /\ structure b = 0.0%float)
  /\ features b = features_of config p
  /\ pre_variance b =
       (if String.eqb (type p) "Commercial"
        then (land b + structure b + features b) * COMMERCIAL_MULTIPLIER config
        else land b + structure b + features b)%float
  /\ price r = (pre_variance b * variance)%float.
Proof.
  unfold calculate_estimate.
  rewrite (float_of_int_fits _ (base_rate_fits (location p))). cbn [bind Ok].
  destruct (float_of_int (area p)) as [area_f|e] eqn:Harea; [|discriminate].
  apply float_of_int_Ok in Harea as [Hfit ->]. cbn [bind].
  destruct (String.eqb (type p) "Residential") eqn:Hres.
  - destruct (float_of_int (bedrooms p * ROOM_PREMIUM config)) as [raw_f|e] eqn:Hraw;
      [|discriminate].
    apply float_of_int_Ok in Hraw as [Hfit' ->]. cbn [bind Ok fst snd].
    intros <-%Ok_inj. cbn [breakdown price]. repeat split; assumption.
  - cbn [bind Ok fst snd]. intros <-%Ok_inj. cbn [breakdown price].
    repeat split; assumption.
Qed.

(** The only failure is an int too large for a float: [calculate_estimate]
    returns whenever the area and, for a residential request, the raw
    structure cost convert. *)
Lemma calculate_estimate_returns (config : MarketConfig) (current : Z) (p : Params)
    (variance : float) :
  fits_float (area p) = true ->
  (type p = "Residential" -> fits_float (bedrooms p * ROOM_PREMIUM config) = true) ->
  exists r, calculate_estimate config current p variance = Ok r.
Proof.
  intros Harea Hraw. unfold calculate_estimate.
  rewrite (float_of_int_fits _ (base_rate_fits (location p))). cbn [bind Ok].
  rewrite (float_of_int_fits _ Harea). cbn [bind Ok].
  destruct (String.eqb_spec (type p) "Residential") as [Hres|Hres].
  - rewrite (float_of_int_fits _ (Hraw Hres)). cbn [bind Ok]. eexists. reflexivity.
  - cbn [bind Ok]. eexists. reflexivity.
Qed.

Lemma features_of_sum (config : MarketConfig) (p : Params) :
  features_of config p
  = foldl (fun acc k => acc + land_value_of config p * k)%float 0%float (premium_rates p).
Proof.
  unfold features_of, premium_rates, add_premium.
  destruct (is_corner p), (is_park p), (is_west_open p); reflexivity.
Qed.

(** ** Floats at hand *)

Lemma float_neq (x y : float) : Prim2SF x <> Prim2SF y -> x <> y.
Proof. intros H ->. apply H. reflexivity. Qed.

Lemma add_zero_r (x : float) : Prim2SF x <> S754_zero true -> (x + 0)%float = x.
Proof.
  intros Hx. apply Prim2SF_inj. rewrite add_spec.
  change (Prim2SF 0) with (S754_zero false).
  destruct (Prim2SF x) as [[|]| | |]; try reflexivity. contradiction.
Qed.

(** ** Depreciation *)

Lemma property_age_nonneg (current construction_year : Z) :
  0 <= property_age current construction_year.
Proof. unfold property_age. lia. Qed.

Lemma depreciation_by_age (current construction_year : Z) :
  let age := property_age current construction_year in
  calculate_depreciation_factor current construction_year =
    if age =? 0 then 1.10%float
    else if age <=? 5 then 1.00%float
    else if age <=? 10 then 0.85%float
    else if age <=? 20 then 0.70%float
    else 0.55%float.
Proof.
  intros age. unfold calculate_depreciation_factor. fold age.
  pose proof (property_age_nonneg current construction_year) as Hage. fold age in Hage.
  destruct (Z.leb_spec age 0), (Z.eqb_spec age 0); reflexivity || lia.
Qed.

Lemma depreciation_at_age (current age : Z) :
  0 <= age ->
  calculate_depreciation_factor current (current - age) =
    if age =? 0 then 1.10%float
    else if age <=? 5 then 1.00%float
    else if age <=? 10 then 0.85%float
    else if age <=? 20 then 0.70%float
    else 0.55%float.
Proof.
  intros Hage. rewrite depreciation_by_age.
  replace (property_age current (current - age)) with age
    by (unfold property_age; lia).
  reflexivity.
Qed.

Lemma depreciation_new (current : Z) :
  calculate_depreciation_factor current current = 1.10%float.
Proof.
  rewrite depreciation_by_age. unfold property_age.
  rewrite Z.sub_diag. reflexivity.
Qed.

(** ** The depreciation curve *)

(** C3: the depreciation factor is a step function of the age, the current
    year minus the construction year clamped at 0: 1.10 at age 0, 1.00 up to
    5, 0.85 from 6 to 10, 0.70 from 11 to 20 and 0.55 from 21 on, hence the
    listed boundary values; the age is never negative, and a future-dated
    construction year has age 0. *)
Theorem depreciation_step_function (current : Z) :
  (calculate_depreciation_factor current (current - 0) = 1.10
   /\ calculate_depreciation_factor current (current - 5) = 1.00
   /\ calculate_depreciation_factor current (current - 6) = 0.85
   /\ calculate_depreciation_factor current (current - 10) = 0.85
   /\ calculate_depreciation_factor current (current - 11) = 0.70
   /\ calculate_depreciation_factor current (current - 20) = 0.70
   /\ calculate_depreciation_factor current (current - 21) = 0.55)%float
  /\ forall construction_year : Z,
       let age := property_age current construction_year in
       let factor := calculate_depreciation_factor current construction_year in
       0 <= age
       /\ (current <= construction_year -> age = 0)
       /\ (construction_year <= current -> age = current - construction_year)
       /\ (age = 0 -> factor = 1.10%float)
       /\ (1 <= age <= 5 -> factor = 1.00%float)
       /\ (6 <= age <= 10 -> factor = 0.85%float)
       /\ (11 <= age <= 20 -> factor = 0.70%float)
       /\ (21 <= age -> factor = 0.55%float).
Proof.
  split.
  - repeat split; rewrite depreciation_at_age by lia; reflexivity.
  - intros construction_year age factor. subst factor.
    rewrite depreciation_by_age. fold age.
    pose proof (property_age_nonneg current construction_year) as Hage. fold age in Hage.
    split; [exact Hage|].
    split; [unfold age, property_age; lia|].
    split; [unfold age, property_age; lia|].
    repeat split; intros H;
      repeat match goal with
             | |- context [?a =? ?b] => destruct (Z.eqb_spec a b); try lia
             | |- context [?a <=? ?b] => destruct (Z.leb_spec a b); try lia
             end; reflexivity.
Qed.

(** ** Table lookups *)

(** C1: the lookups of a request never fail. A request whose area (and, if
    residential, raw structure cost) converts to a float returns an estimate
    whether or not its location, road width or quality are keys of their
    tables; the estimate's base rate is the table's rate for a location of
    the table, which is never the default, and 50,000 for any other
    location; an unknown road-width label or quality tier enters the land
    value or the structure value as the factor 1.0. *)
Theorem rate_lookup_never_fails (config : MarketConfig) (current : Z)
    (p : Params) (variance : float) :
  (fits_float (area p) = true ->
   (type p = "Residential" -> fits_float (bedrooms p * ROOM_PREMIUM config) = true) ->
   exists r, calculate_estimate config current p variance = Ok r)
  /\ forall r, calculate_estimate config current p variance = Ok r ->
       let b := breakdown r in
       (forall rate, BASE_RATES !! location p = Some rate ->
                     base_rate b = rate /\ rate <> 50000)
       /\ (BASE_RATES !! location p = None -> base_rate b = 50000)
       /\ (ROAD_WIDTH_FACTORS config !! road_width p = None ->
           land b = (round_int (base_rate b) * 1.0 * round_int (area p))%float)
       /\ (type p = "Residential" ->
           QUALITY_MULTIPLIERS config !! quality p = None ->
           structure b = (round_int (bedrooms p * ROOM_PREMIUM config) * 1.0
                          * depreciation_factor b)%float).
Proof.
  split; [apply calculate_estimate_returns|].
  intros r Hr b.
  destruct (calculate_estimate_inv _ _ _ _ _ Hr) as (_ & Hbase & Hland & Hstruct & _).
  fold b in Hbase, Hland, Hstruct.
  split; [|split; [|split]].
  - intros rate Hloc. split.
    + rewrite Hbase. apply dict_get_Some. assumption.
    + exact (BASE_RATES_not_default _ _ Hloc).
  - intros Hloc. rewrite Hbase. apply dict_get_None. assumption.
  - intros Hroad. rewrite Hland, Hbase. unfold land_value_of.
    rewrite (dict_get_None _ _ _ Hroad). reflexivity.
  - intros Hres Hq. rewrite Hres, String.eqb_refl in Hstruct.
    destruct Hstruct as (_ & _ & ->). rewrite (dict_get_None _ _ _ Hq). reflexivity.
Qed.

(** ** Property types *)

(** C2: a Commercial request has structure value exactly 0 and its subtotal
    land + structure + features, which is land + features, is multiplied by
    1.60; a Residential request keeps the subtotal as it is. *)
Theorem commercial_uplift (current : Z) (p : Params) (variance : float) :
  fits_float (area p) = true ->
  (type p = "Residential" ->
   fits_float (bedrooms p * ROOM_PREMIUM default_config) = true) ->
  exists r, calculate_estimate default_config current p variance = Ok r
    /\ let b := breakdown r in
       (type p = "Commercial" ->
          structure b = 0%float
          /\ pre_variance b = ((land b + structure b + features b) * 1.60)%float
          /\ (Prim2SF (land b) <> S754_zero true ->
              pre_variance b = ((land b + features b) * 1.60)%float))
       /\ (type p = "Residential" ->
          pre_variance b = (land b + structure b + features b)%float).
Proof.
  intros Harea Hraw.
  destruct (calculate_estimate_returns default_config current p variance Harea Hraw)
    as [r Hr].
  exists r. split; [exact Hr|]. intros b.
  destruct (calculate_estimate_inv _ _ _ _ _ Hr) as (_ & _ & _ & Hstruct & _ & Hpre & _).
  fold b in Hstruct, Hpre. split.
  - intros Hcom. rewrite Hcom in Hstruct, Hpre.
    change (String.eqb "Commercial" "Residential") with false in Hstruct.
    change (String.eqb "Commercial" "Commercial") with true in Hpre.
    destruct Hstruct as [_ Hs]. split; [exact Hs|]. split; [exact Hpre|].
    intros Hland. rewrite Hpre, Hs. rewrite (add_zero_r _ Hland). reflexivity.
  - intros Hres. rewrite Hres in Hpre.
    change (String.eqb "Residential" "Commercial") with false in Hpre. exact Hpre.
Qed.

Lemma commercial_uplift_witness :
  exists r, calculate_estimate default_config 2026 (example_request "Commercial" 2026) 1
            = Ok r
    /\ let b := breakdown r in
       ("Commercial" = "Commercial" ->
          structure b = 0%float
          /\ pre_variance b = ((land b + structure b + features b) * 1.60)%float
          /\ (Prim2SF (land b) <> S754_zero true ->
              pre_variance b = ((land b + features b) * 1.60)%float))
       /\ ("Commercial" = "Residential" ->
          pre_variance b = (land b + structure b + features b)%float).
Proof.
  apply (commercial_uplift 2026 (example_request "Commercial" 2026) 1).
  - vm_compute. reflexivity.
  - intros _. vm_compute. reflexivity.
Defined.

(** C10: two Commercial requests that agree on location, area, road width and
    the three flags have the same breakdown, pre-jitter total included,
    whatever their bedrooms, quality tiers and construction years (and
    whatever the year and the draw of each call); a Commercial breakdown
    reports structure value 0.0 and depreciation factor 1.0; and the estimate
    is returned as soon as the area converts to a float. *)
Theorem commercial_ignores_structure_inputs (config : MarketConfig)
    (current1 current2 : Z) (p1 p2 : Params) (variance1 variance2 : float) :
  type p1 = "Commercial" -> type p2 = "Commercial" ->
  location p1 = location p2 -> area p1 = area p2 -> road_width p1 = road_width p2 ->
  is_corner p1 = is_corner p2 -> is_park p1 = is_park p2 ->
  is_west_open p1 = is_west_open p2 ->
  breakdown_of (calculate_estimate config current1 p1 variance1)
  = breakdown_of (calculate_estimate config current2 p2 variance2)
  /\ (forall r, calculate_estimate config current1 p1 variance1 = Ok r ->
        structure (breakdown r) = 0.0%float
        /\ depreciation_factor (breakdown r) = 1.0%float)
  /\ (fits_float (area p1) = true ->
      exists r1 r2,
        calculate_estimate config current1 p1 variance1 = Ok r1
        /\ calculate_estimate config current2 p2 variance2 = Ok r2
        /\ breakdown r1 = breakdown r2
        /\ pre_variance (breakdown r1) = pre_variance (breakdown r2)).
Proof.
  intros Ht1 Ht2 Hloc Harea Hroad Hc Hp Hw.
  assert (H : breakdown_of (calculate_estimate config current1 p1 variance1)
              = breakdown_of (calculate_estimate config current2 p2 variance2)).
  { unfold calculate_estimate, breakdown_of.
    rewrite Ht1, Ht2, Hloc, Harea, Hroad, Hc, Hp, Hw.
    change (String.eqb "Commercial" "Residential") with false.
    destruct (float_of_int (dict_get BASE_RATES (location p2) 50000)); [|reflexivity].
    destruct (float_of_int (area p2)); reflexivity. }
  split; [exact H|]. split.
  - intros r Hr.
    destruct (calculate_estimate_inv _ _ _ _ _ Hr) as (_ & _ & _ & Hstruct & _).
    rewrite Ht1 in Hstruct.
    change (String.eqb "Commercial" "Residential") with false in Hstruct.
    destruct Hstruct as [Hd Hs]. split; assumption.
  - intros Hfit.
    destruct (calculate_estimate_returns config current1 p1 variance1 Hfit) as [r1 Hr1].
    { rewrite Ht1. discriminate. }
    destruct (calculate_estimate_returns config current2 p2 variance2) as [r2 Hr2].
    { rewrite <- Harea. exact Hfit. }
    { rewrite Ht2. discriminate. }
    exists r1, r2. rewrite Hr1, Hr2 in H. cbn [breakdown_of bind] in H.
    apply Ok_inj in H. rewrite H. repeat split; assumption.
Qed.

Lemma commercial_ignores_structure_inputs_witness :
  breakdown_of (calculate_estimate default_config 2026
                  (example_request "Commercial" 1960) 0.97)
  = breakdown_of (calculate_estimate default_config 2030
                    {| location := "DHA Phase 8"; area := 240; type := "Commercial";
                       road_width := "Standard Street (30-40ft)"; year_built := 2031;
                       bedrooms := 12; quality := "A+ (Luxury)";
                       is_corner := false; is_park := false; is_west_open := false |}
                    1.03)
  /\ (forall r, calculate_estimate default_config 2026
                  (example_request "Commercial" 1960) 0.97 = Ok r ->
        structure (breakdown r) = 0.0%float
        /\ depreciation_factor (breakdown r) = 1.0%float)
  /\ (fits_float 240 = true ->
      exists r1 r2,
        calculate_estimate default_config 2026 (example_request "Commercial" 1960) 0.97
        = Ok r1
        /\ calculate_estimate default_config 2030
             {| location := "DHA Phase 8"; area := 240; type := "Commercial";
                road_width := "Standard Street (30-40ft)"; year_built := 2031;
                bedrooms := 12; quality := "A+ (Luxury)";
                is_corner := false; is_park := false; is_west_open := false |}
             1.03 = Ok r2
        /\ breakdown r1 = breakdown r2
        /\ pre_variance (breakdown r1) = pre_variance (breakdown r2)).
Proof.
  apply (commercial_ignores_structure_inputs default_config 2026 2030
           (example_request "Commercial" 1960)
           {| location := "DHA Phase 8"; area := 240; type := "Commercial";
              road_width := "Standard Street (30-40ft)"; year_built := 2031;
              bedrooms := 12; quality := "A+ (Luxury)";
              is_corner := false; is_park := false; is_west_open := false |}
           0.97 1.03); reflexivity.
Defined.

(** ** The worked examples *)

(** C6 (as the code computes it): for the DHA Phase 8 request built in the
    current year, the residential estimate has land value 45,600,000,
    structure value 3960000.0000000005 (the binary64 product of 3,600,000 and
    1.10) and pre-jitter subtotal 49,560,000; the commercial one has
    structure 0, subtotal 45,600,000 and post-uplift total 72,960,000. *)
Theorem worked_examples (current : Z) (variance : float) :
  calculate_estimate default_config current (example_request "Residential" current) variance
  = Ok {| price := 49560000 * variance;
          breakdown := {| base_rate := 190000; land := 45600000%float;
                          structure := 3960000.0000000005%float; features := 0%float;
                          depreciation_factor := 1.10%float;
                          pre_variance := 49560000%float |} |}
  /\ (exists r,
        calculate_estimate default_config current (example_request "Commercial" current)
          variance = Ok r
        /\ r = {| price := 72960000 * variance;
                  breakdown := {| base_rate := 190000; land := 45600000%float;
                                  structure := 0%float; features := 0%float;
                                  depreciation_factor := 1%float;
                                  pre_variance := 72960000%float |} |}
        /\ (land (breakdown r) + structure (breakdown r) + features (breakdown r)
            = 45600000)%float).
Proof.
  split.
  - unfold calculate_estimate, example_request.
    cbn [location area type road_width year_built bedrooms quality
         is_corner is_park is_west_open].
    rewrite depreciation_new. vm_compute. reflexivity.
  - eexists. split; [vm_compute; reflexivity|]. split; vm_compute; reflexivity.
Qed.

(** C6, as stated, fails in the structure value: it is not 3,960,000. *)
Lemma worked_example_structure_inexact :
  exists r,
    calculate_estimate default_config 2026 (example_request "Residential" 2026) 1 = Ok r
    /\ land (breakdown r) = 45600000%float
    /\ pre_variance (breakdown r) = 49560000%float
    /\ structure (breakdown r) <> 3960000%float.
Proof.
  eexists. split; [vm_compute; reflexivity|].
  cbn [breakdown land pre_variance structure]. repeat split.
  apply float_neq. vm_compute. discriminate.
Qed.

(** ** Reproducibility of the breakdown *)

(** C8 (as the code computes it): for a fixed request and a fixed current
    calendar year, two calls with any two jitter draws have the same outcome
    up to the final price: both fail alike or both return, with identical
    breakdowns, and each final price is the shared pre-jitter subtotal times
    that call's draw. *)
Theorem breakdown_independent_of_jitter (config : MarketConfig) (current : Z)
    (p : Params) (variance1 variance2 : float) :
  breakdown_of (calculate_estimate config current p variance1)
  = breakdown_of (calculate_estimate config current p variance2)
  /\ (forall r1, calculate_estimate config current p variance1 = Ok r1 ->
      exists r2, calculate_estimate config current p variance2 = Ok r2
        /\ breakdown r1 = breakdown r2
        /\ price r1 = (pre_variance (breakdown r1) * variance1)%float
        /\ price r2 = (pre_variance (breakdown r1) * variance2)%float).
Proof.
  assert (H : breakdown_of (calculate_estimate config current p variance1)
              = breakdown_of (calculate_estimate config current p variance2)).
  { unfold calculate_estimate, breakdown_of.
    destruct (float_of_int (dict_get BASE_RATES (location p) 50000)); [|reflexivity].
    destruct (float_of_int (area p)); [|reflexivity]. cbn [bind].
    destruct (String.eqb (type p) "Residential"); [|reflexivity].
    destruct (float_of_int (bedrooms p * ROOM_PREMIUM config)); reflexivity. }
  split; [exact H|]. intros r1 Hr1.
  rewrite Hr1 in H. cbn [breakdown_of bind Ok] in H.
  destruct (calculate_estimate config current p variance2) as [r2|e] eqn:Hr2;
    [|discriminate].
  cbn [bind] in H. apply Ok_inj in H.
  exists r2. split; [reflexivity|]. split; [exact H|].
  destruct (calculate_estimate_inv _ _ _ _ _ Hr1) as (_ & _ & _ & _ & _ & _ & Hp1).
  destruct (calculate_estimate_inv _ _ _ _ _ Hr2) as (_ & _ & _ & _ & _ & _ & Hp2).
  rewrite H at 2. split; assumption.
Qed.

(** C8, as stated, fails: the breakdown also depends on the calendar year of
    the call, since the depreciation factor is computed from today's year.
    The same residential request, with the same draw, has different
    breakdowns in 2025 and in 2026. *)
Lemma breakdown_depends_on_current_year :
  exists r1 r2,
    calculate_estimate default_config 2025 (example_request "Residential" 2025) 1 = Ok r1
    /\ calculate_estimate default_config 2026 (example_request "Residential" 2025) 1 = Ok r2
    /\ depreciation_factor (breakdown r1) = 1.10%float
    /\ depreciation_factor (breakdown r2) = 1.00%float
    /\ breakdown r1 <> breakdown r2.
Proof.
  do 2 eexists. split; [vm_compute; reflexivity|]. split; [vm_compute; reflexivity|].
  cbn [breakdown depreciation_factor]. repeat split.
  intros H. apply (f_equal depreciation_factor) in H. cbn [depreciation_factor] in H.
  revert H. apply float_neq. vm_compute. discriminate.
Qed.

(** ** Feature premiums *)

(** C4 (as the code computes it): the feature total is the sum, accumulated
    from 0.0 in binary64, of one premium per set flag, each computed against
    the land value whatever the property type: land * 0.15 for corner, then
    land * 0.10 for park-facing, then land * 0.05 for west-open. With all
    three flags it is 0.0 + land * 0.15 + land * 0.10 + land * 0.05, each
    step rounded, which is 30% of the land value up to that rounding. *)
Theorem feature_premiums_additive (config : MarketConfig) (current : Z)
    (p : Params) (variance : float) (r : Estimate) :
  calculate_estimate config current p variance = Ok r ->
  let b := breakdown r in
  features b = foldl (fun acc k => acc + land b * k)%float 0%float (premium_rates p)
  /\ (is_corner p = true -> is_park p = true -> is_west_open p = true ->
      features b = (0 + land b * 0.15 + land b * 0.10 + land b * 0.05)%float)
  /\ (is_corner p = false -> is_park p = false -> is_west_open p = false ->
      features b = 0%float).
Proof.
  intros Hr b.
  destruct (calculate_estimate_inv _ _ _ _ _ Hr) as (_ & _ & Hland & _ & Hfeat & _).
  fold b in Hland, Hfeat. rewrite Hfeat, Hland, features_of_sum.
  split; [reflexivity|]. unfold premium_rates.
  split; intros -> -> ->; reflexivity.
Qed.

Lemma feature_premiums_additive_witness :
  let b := {| base_rate := 190000; land := 13109999.999999998%float;
              structure := 3060000%float; features := 3932999.9999999995%float;
              depreciation_factor := 0.85%float;
              pre_variance := 20102999.999999996%float |} in
  features b = foldl (fun acc k => acc + land b * k)%float 0%float
                 (premium_rates boulevard_request)
  /\ (true = true -> true = true -> true = true ->
      features b = (0 + land b * 0.15 + land b * 0.10 + land b * 0.05)%float)
  /\ (true = false -> true = false -> true = false -> features b = 0%float).
Proof.
  apply (feature_premiums_additive default_config 2026 boulevard_request 1
           {| price := 20102999.999999996%float;
              breakdown := {| base_rate := 190000; land := 13109999.999999998%float;
                              structure := 3060000%float;
                              features := 3932999.9999999995%float;
                              depreciation_factor := 0.85%float;
                              pre_variance := 20102999.999999996%float |} |}).
  vm_compute. reflexivity.
Defined.

(** C4, as stated, fails in its last part: with all three flags set the
    feature total need not be exactly 30% of the land value, neither as the
    float product land * 0.30 nor as an exact ratio. *)
Lemma three_flags_not_exactly_30_percent :
  exists r, calculate_estimate default_config 2026 boulevard_request 1 = Ok r
    /\ land (breakdown r) = 13109999.999999998%float
    /\ features (breakdown r) = 3932999.9999999995%float
    /\ features (breakdown r) <> (land (breakdown r) * 0.30)%float
    /\ exists f l, float_to_Q (features (breakdown r)) = Some f
         /\ float_to_Q (land (breakdown r)) = Some l
         /\ ~ (f == (3 # 10) * l)%Q.
Proof.
  eexists. split; [vm_compute; reflexivity|].
  cbn [breakdown land features]. repeat split.
  - apply float_neq. vm_compute. discriminate.
  - do 2 eexists. split; [vm_compute; reflexivity|]. split; [vm_compute; reflexivity|].
    intros H. apply Qeq_bool_iff in H. vm_compute in H. discriminate.
Qed.

(** ** The jitter *)

Lemma range_check (P : Z -> bool) (lo hi : Z) :
  forallb P (map (fun i => lo + Z.of_nat i) (seq 0 (Z.to_nat (hi - lo + 1)))) = true ->
  forall z, lo <= z <= hi -> P z = true.
Proof.
  intros Hall z Hz. rewrite forallb_forall in Hall. apply Hall.
  apply in_map_iff. exists (Z.to_nat (z - lo)). split; [lia|].
  apply in_seq. lia.
Qed.

Lemma area_converts (z : Z) :
  50 <= z <= 4000 -> fits_float z = true /\ positive_finite (round_int z) = true.
Proof.
  intros Hz. apply andb_true_iff.
  apply (range_check (fun z => fits_float z && positive_finite (round_int z)) 50 4000);
    [vm_compute; reflexivity|assumption].
Qed.

Lemma raw_structure_converts (b : Z) :
  1 <= b <= 12 ->
  fits_float (b * ROOM_PREMIUM default_config) = true
  /\ (0 <=? round_int (b * ROOM_PREMIUM default_config))%float = true.
Proof.
  intros Hb. apply andb_true_iff.
  apply (range_check (fun b => fits_float (b * ROOM_PREMIUM default_config)
                               && (0 <=? round_int (b * ROOM_PREMIUM default_config))%float)
           1 12); [vm_compute; reflexivity|assumption].
Qed.

Lemma BASE_RATES_nonneg :
  map_Forall (fun _ rate => (0 <=? round_int rate)%float = true) BASE_RATES.
Proof. apply (bool_decide_unpack _). vm_compute. exact I. Qed.

Lemma base_rate_nonneg (loc : string) :
  (0 <=? round_int (dict_get BASE_RATES loc 50000%Z))%float = true.
Proof.
  unfold dict_get. destruct (BASE_RATES !! loc) as [rate|] eqn:Hloc.
  - exact (BASE_RATES_nonneg loc rate Hloc).
  - reflexivity.
Qed.

Lemma dict_get_positive_finite (d : gmap string float) (key : string) (default : float) :
  map_Forall (fun _ f => positive_finite f = true) d ->
  positive_finite default = true ->
  positive_finite (dict_get d key default) = true.
Proof.
  intros Hd Hdef. unfold dict_get. destruct (d !! key) as [f|] eqn:Hkey.
  - exact (Hd key f Hkey).
  - exact Hdef.
Qed.

Lemma road_factor_positive (label : string) :
  positive_finite (dict_get (ROAD_WIDTH_FACTORS default_config) label 1.0%float) = true.
Proof.
  apply dict_get_positive_finite; [|reflexivity].
  apply (bool_decide_unpack _). vm_compute. exact I.
Qed.

Lemma quality_positive (label : string) :
  positive_finite (dict_get (QUALITY_MULTIPLIERS default_config) label 1.0%float) = true.
Proof.
  apply dict_get_positive_finite; [|reflexivity].
  apply (bool_decide_unpack _). vm_compute. exact I.
Qed.

Lemma depreciation_positive (current construction_year : Z) :
  positive_finite (calculate_depreciation_factor current construction_year) = true.
Proof.
  unfold calculate_depreciation_factor.
  repeat match goal with
         | |- context [?a <=? ?b] => destruct (a <=? b)
         end; reflexivity.
Qed.

Lemma mul_nonneg_pf (x y : float) :
  (0 <=? x)%float = true -> positive_finite y = true -> (0 <=? x * y)%float = true.
Proof.
  intros Hx [Hy Hy']%andb_true_iff. apply mul_nonneg; assumption.
Qed.

Lemma add_premium_nonneg (flag : bool) (land_value k features : float) :
  (0 <=? land_value)%float = true -> positive_finite k = true ->
  (0 <=? features)%float = true ->
  (0 <=? add_premium flag land_value k features)%float = true.
Proof.
  intros Hl Hk Hf. unfold add_premium. destruct flag; [|exact Hf].
  apply add_nonneg; [exact Hf|]. apply mul_nonneg_pf; assumption.
Qed.

Lemma jitter_range (variance : float) :
  (0.97 <=? variance)%float = true -> (variance <=? 1.03)%float = true ->
  (0 <? variance)%float = true /\ (variance <? infinity)%float = true.
Proof.
  rewrite !leb_spec, !ltb_spec.
  change (Prim2SF 0.97) with (S754_finite false 8736983277098762 (-53)).
  change (Prim2SF 1.03) with (S754_finite false 4638707616191611 (-52)).
  change (Prim2SF 0) with (S754_zero false).
  change (Prim2SF infinity) with (S754_infinity false).
  destruct (Prim2SF variance) as [s|[|]| |[|] m e]; intros H1 H2;
    try (split; reflexivity);
    try (vm_compute in H1; discriminate H1);
    vm_compute in H2; discriminate H2.
Qed.

(** The pre-jitter subtotal of a valid request is not negative. *)
Lemma valid_request_returns (current : Z) (p : Params) (variance : float) :
  valid_request p ->
  exists r, calculate_estimate default_config current p variance = Ok r
    /\ (0 <=? pre_variance (breakdown r))%float = true.
Proof.
  intros (_ & Harea & Htype & _ & _ & Hres).
  destruct (area_converts _ Harea) as [Hfit Hpos].
  destruct (calculate_estimate_returns default_config current p variance Hfit) as [r Hr].
  { intros Ht. apply raw_structure_converts. apply Hres. exact Ht. }
  exists r. split; [exact Hr|].
  destruct (calculate_estimate_inv _ _ _ _ _ Hr)
    as (_ & _ & Hland & Hstruct & Hfeat & Hpre & _).
  assert (Hl : (0 <=? land (breakdown r))%float = true).
  { rewrite Hland. unfold land_value_of.
    apply mul_nonneg_pf; [|exact Hpos].
    apply mul_nonneg_pf; [apply base_rate_nonneg|apply road_factor_positive]. }
  assert (Hs : (0 <=? structure (breakdown r))%float = true).
  { destruct (String.eqb_spec (type p) "Residential") as [Ht|Ht].
    - destruct Hstruct as (_ & Hd & ->). rewrite Hd.
      apply mul_nonneg_pf; [|apply depreciation_positive].
      apply mul_nonneg_pf; [|apply quality_positive].
      apply raw_structure_converts. apply Hres. exact Ht.
    - destruct Hstruct as [_ ->]. reflexivity. }
  assert (Hf : (0 <=? features (breakdown r))%float = true).
  { rewrite Hfeat. unfold features_of. fold (land_value_of default_config p).
    rewrite <- Hland.
    repeat apply add_premium_nonneg; try assumption; reflexivity. }
  assert (Ht : (0 <=? land (breakdown r) + structure (breakdown r)
                      + features (breakdown r))%float = true).
  { repeat apply add_nonneg; assumption. }
  rewrite Hpre. destruct (String.eqb (type p) "Commercial"); [|exact Ht].
  apply mul_nonneg_pf; [exact Ht|reflexivity].
Qed.

(** C5: for a valid request and a draw in [0.97, 1.03], the estimate is
    returned, its final price is the pre-jitter subtotal of the breakdown
    (post-uplift for a commercial property) times the draw, and so lies
    between that subtotal times 0.97 and that subtotal times 1.03. *)
Theorem final_price_within_jitter (current : Z) (p : Params) (variance : float) :
  valid_request p ->
  (0.97 <=? variance)%float = true -> (variance <=? 1.03)%float = true ->
  exists r, calculate_estimate default_config current p variance = Ok r
    /\ let total := pre_variance (breakdown r) in
       price r = (total * variance)%float
       /\ (0 <=? total)%float = true
       /\ (total * 0.97 <=? price r)%float = true
       /\ (price r <=? total * 1.03)%float = true.
Proof.
  intros Hvalid Hlo Hhi.
  destruct (valid_request_returns current p variance Hvalid) as (r & Hr & Hnonneg).
  exists r. split; [exact Hr|]. intros total.
  destruct (calculate_estimate_inv _ _ _ _ _ Hr) as (_ & _ & _ & _ & _ & _ & Hprice).
  destruct (jitter_range variance Hlo Hhi) as [Hpos Hfin].
  fold total in Hprice, Hnonneg. rewrite Hprice.
  split; [reflexivity|]. split; [exact Hnonneg|]. split.
  - apply mul_le_mono_l; [exact Hnonneg|reflexivity|exact Hlo|exact Hfin].
  - apply mul_le_mono_l; [exact Hnonneg|exact Hpos|exact Hhi|reflexivity].
Qed.

Lemma final_price_within_jitter_witness :
  exists r, calculate_estimate default_config 2026 (example_request "Residential" 2020) 1.03
            = Ok r
    /\ let total := pre_variance (breakdown r) in
       price r = (total * 1.03)%float
       /\ (0 <=? total)%float = true
       /\ (total * 0.97 <=? price r)%float = true
       /\ (price r <=? total * 1.03)%float = true.
Proof.
  apply (final_price_within_jitter 2026 (example_request "Residential" 2020) 1.03).
  - unfold valid_request, example_request.
    cbn [location area type road_width year_built bedrooms quality].
    split; [vm_compute; eauto|]. split; [lia|]. split; [left; reflexivity|].
    split; [vm_compute; eauto|]. split; [lia|].
    intros _. split; [lia|vm_compute; eauto].
  - reflexivity.
  - reflexivity.
Defined.

(** ** Currency formatting *)

Lemma digit_char_spec (d : Z) :
  0 <= d < 10 ->
  Ascii.eqb (digit_char d) ","%char = false
  /\ Z.of_nat (nat_of_ascii (digit_char d)) - 48 = d.
Proof.
  intros Hd.
  assert (H : d = 0 \/ d = 1 \/ d = 2 \/ d = 3 \/ d = 4 \/ d = 5 \/ d = 6 \/ d = 7
              \/ d = 8 \/ d = 9) by lia.
  repeat (destruct H as [->|H]; [split; reflexivity|]). subst d. split; reflexivity.
Qed.

Lemma read_step_digit (acc d : Z) :
  0 <= d < 10 -> read_step acc (digit_char d) = 10 * acc + d.
Proof.
  intros Hd. unfold read_step. destruct (digit_char_spec d Hd) as [-> ->]. reflexivity.
Qed.

Lemma decimal_digits_value (fuel : nat) (n : Z) (acc : list ascii) :
  0 <= n < 2 ^ Z.of_nat fuel ->
  fold_left read_step (decimal_digits fuel n acc) 0 = fold_left read_step acc n.
Proof.
  revert n acc. induction fuel as [|fuel IH]; intros n acc Hn.
  - change (2 ^ Z.of_nat 0) with 1 in Hn. replace n with 0 by lia. reflexivity.
  - cbn [decimal_digits].
    pose proof (Z.mod_pos_bound n 10 ltac:(lia)) as Hmod.
    pose proof (Z.div_mod n 10 ltac:(lia)) as Hdiv.
    destruct (Z.ltb_spec n 10) as [Hlt|Hge].
    + cbn [fold_left]. rewrite read_step_digit by assumption.
      rewrite Z.mod_small by lia. reflexivity.
    + rewrite IH.
      * cbn [fold_left]. rewrite read_step_digit by assumption. f_equal. lia.
      * rewrite Nat2Z.inj_succ, Z.pow_succ_r in Hn by lia.
        split; [apply Z.div_pos; lia|]. apply Z.div_lt_upper_bound; lia.
Qed.

Lemma decimal_digits_no_comma (fuel : nat) (n : Z) (acc : list ascii) :
  0 <= n ->
  Forall (fun c => Ascii.eqb c ","%char = false) acc ->
  Forall (fun c => Ascii.eqb c ","%char = false) (decimal_digits fuel n acc).
Proof.
  revert n acc. induction fuel as [|fuel IH]; intros n acc Hn Hacc; [exact Hacc|].
  cbn [decimal_digits].
  pose proof (Z.mod_pos_bound n 10 ltac:(lia)) as Hmod.
  assert (Hacc' : Forall (fun c => Ascii.eqb c ","%char = false)
                    (digit_char (n mod 10) :: acc)).
  { constructor; [apply digit_char_spec; assumption|exact Hacc]. }
  destruct (n <? 10); [exact Hacc'|]. apply IH; [apply Z.div_pos; lia|exact Hacc'].
Qed.

Lemma decimal_value (n : Z) : 0 <= n -> fold_left read_step (decimal n) 0 = n.
Proof.
  intros Hn. unfold decimal. rewrite decimal_digits_value; [reflexivity|].
  split; [assumption|]. rewrite Nat2Z.inj_succ, Z2Nat.id by apply Z.log2_nonneg.
  destruct (Z.eq_dec n 0) as [->|]; [reflexivity|]. apply Z.log2_spec. lia.
Qed.

Lemma fold_read_step_filter (l : list ascii) (acc : Z) :
  fold_left read_step l acc
  = fold_left read_step (List.filter (fun c => negb (Ascii.eqb c ","%char)) l) acc.
Proof.
  revert acc. induction l as [|c l IH]; intros acc; [reflexivity|].
  cbn [fold_left List.filter].
  destruct (Ascii.eqb c ","%char) eqn:Hc; cbn [negb fold_left].
  - rewrite <- IH. f_equal. unfold read_step. rewrite Hc. reflexivity.
  - apply IH.
Qed.

Lemma group3_filter (n : nat) (l : list ascii) :
  (length l <= n)%nat ->
  Forall (fun c => Ascii.eqb c ","%char = false) l ->
  List.filter (fun c => negb (Ascii.eqb c ","%char)) (group3 l) = l.
Proof.
  revert l. induction n as [n IH] using lt_wf_ind.
  intros l Hlen Hl.
  assert (Hid : List.filter (fun c => negb (Ascii.eqb c ","%char)) l = l).
  { clear Hlen IH. induction Hl as [|c l Hc _ IHl]; [reflexivity|].
    cbn [List.filter]. rewrite Hc. cbn [negb]. f_equal. exact IHl. }
  destruct l as [|a [|b [|c [|d rest]]]]; try exact Hid.
  change (group3 (a :: b :: c :: d :: rest))
    with (a :: b :: c :: ","%char :: group3 (d :: rest)).
  inversion Hl as [|? ? Ha Hl1]; subst. inversion Hl1 as [|? ? Hb Hl2]; subst.
  inversion Hl2 as [|? ? Hc Hl3]; subst.
  cbn [List.filter]. rewrite Ha, Hb, Hc. cbn [negb].
  change (Ascii.eqb ","%char ","%char) with true. cbn [negb].
  do 3 f_equal. cbn [length] in Hlen.
  apply (IH (n - 3)%nat); [lia|cbn [length]; lia|exact Hl3].
Qed.

(** The grouped numeral of a natural number reads back as that number. *)
Lemma read_grouped_numeral (n : Z) :
  0 <= n -> read_grouped (group_thousands (decimal n)) = n.
Proof.
  intros Hn. unfold read_grouped.
  rewrite fold_read_step_filter. unfold group_thousands.
  assert (Hd : Forall (fun c => Ascii.eqb c ","%char = false) (decimal n)).
  { apply decimal_digits_no_comma; [assumption|constructor]. }
  assert (Hf : List.filter (fun c => negb (Ascii.eqb c ","%char))
                 (rev (group3 (rev (decimal n)))) = decimal n).
  { rewrite List.filter_rev.
    rewrite (group3_filter (length (rev (decimal n)))); [|lia|apply Forall_rev; exact Hd].
    apply rev_involutive. }
  rewrite Hf. apply decimal_value. assumption.
Qed.

Lemma round_half_even_nonneg (m : positive) (e : Z) : 0 <= round_half_even m e.
Proof.
  unfold round_half_even. destruct (Z.leb_spec 0 e).
  - pose proof (pow2_pos e ltac:(lia)). lia.
  - apply rne_nonneg; lia.
Qed.

(** C9: [format_pk] returns the crore magnitude amount / 10,000,000 and the
    lakh magnitude amount / 100,000, each the one binary64 division and
    nothing else, and the currency string "PKR " followed by the amount
    formatted with [,.0f]; for a positive amount that string is a grouped
    numeral that reads back as the amount rounded half-even to an integer. *)
Theorem format_pk_magnitudes (amount : float) :
  format_pk amount
  = ((amount / 10000000)%float, (amount / 100000)%float,
     String.append "PKR " (format_comma_0f amount))
  /\ Prim2SF (fst (fst (format_pk amount)))
     = SF64div (Prim2SF amount) (Prim2SF 10000000)
  /\ Prim2SF (snd (fst (format_pk amount)))
     = SF64div (Prim2SF amount) (Prim2SF 100000)
  /\ forall m e, Prim2SF amount = S754_finite false m e ->
       exists numeral,
         snd (format_pk amount) = String.append "PKR " (string_of_list_ascii numeral)
         /\ read_grouped numeral = round_half_even m e.
Proof.
  split; [reflexivity|]. split; [apply div_spec|]. split; [apply div_spec|].
  intros m e Hm. exists (group_thousands (decimal (round_half_even m e))).
  split.
  - unfold format_pk, format_comma_0f. cbn [snd]. rewrite Hm. reflexivity.
  - apply read_grouped_numeral. apply round_half_even_nonneg.
Qed.

Example format_pk_examples :
  format_pk 49560000 = (4.956%float, 495.6%float, "PKR 49,560,000")
  /\ format_pk 72960000 = (7.296%float, 729.6%float, "PKR 72,960,000")
  /\ snd (format_pk 3960000.0000000005) = "PKR 3,960,000"
  /\ snd (format_pk 2.5) = "PKR 2"
  /\ snd (format_pk 999.5) = "PKR 1,000".
Proof. repeat split; vm_compute; reflexivity. Qed.

(** ** More of binary64 arithmetic

    Rounding is monotone on values, rounded results are valid, the float
    order is transitive, [+] and [*] are commutative and monotone on
    non-negative floats. *)

(** ** Alignment and values *)

Lemma digits_shift (m k : Z) : 0 < m -> 0 <= k -> Zdigits2 (m * 2 ^ k) = Zdigits2 m + k.
Proof.
  intros Hm Hk. pose proof (pow2_pos k Hk) as Hp.
  pose proof (digits_bounds m Hm) as [Hlo Hhi]. pose proof (digits_pos m Hm) as Hd.
  assert (Hle : Zdigits2 (m * 2 ^ k) <= Zdigits2 m + k).
  { apply digits_le; [nia|lia|]. rewrite Z.pow_add_r by lia. nia. }
  assert (Hge : Zdigits2 m + k - 1 < Zdigits2 (m * 2 ^ k)).
  { apply digits_gt; [lia|].
    replace (Zdigits2 m + k - 1) with ((Zdigits2 m - 1) + k) by lia.
    rewrite Z.pow_add_r by lia. nia. }
  lia.
Qed.

Lemma shl_align_spec (mx : positive) (ex ex' : Z) :
  let '(mz, ez) := shl_align mx ex ex' in
  ez = Z.min ex ex' /\ Z.pos mz = Z.pos mx * 2 ^ (ex - ez).
Proof.
  unfold shl_align. destruct (ex' - ex) as [|d|d] eqn:Hd.
  - split; [lia|]. replace (ex - ex) with 0 by lia. lia.
  - split; [lia|]. replace (ex - ex) with 0 by lia. lia.
  - split; [lia|]. replace (ex - ex') with (Z.pos d) by lia.
    change (Pos.iter xO mx d) with (shift_pos d mx).
    rewrite shift_pos_correct. rewrite Zpower_pos_nat, Zpower_nat_Z.
    rewrite positive_nat_Z. lia.
Qed.

Lemma binary_round_aligned (s : bool) (m : positive) (e : Z) :
  exists M ez, binary_round prec emax s m e = binary_round_aux prec emax s M ez loc_Exact
    /\ aligned M ez /\ ez <= e /\ M = Z.pos m * 2 ^ (e - ez).
Proof.
  unfold binary_round.
  pose proof (shl_align_spec m e (fexp prec emax (Z.pos (digits2_pos m) + e))) as H.
  destruct (shl_align m e _) as [mz ez]. destruct H as [Hez Hmz].
  exists (Z.pos mz), ez. split; [reflexivity|].
  split; [|split; [lia|exact Hmz]].
  split; [lia|]. rewrite Hmz, digits_shift by lia. cbn [Zdigits2].
  replace (Z.pos (digits2_pos m) + (e - ez) + ez) with (Z.pos (digits2_pos m) + e) by lia.
  lia.
Qed.

Lemma binary_round_aux_shift (s : bool) (m e k : Z) :
  aligned m e -> 0 <= k ->
  binary_round_aux prec emax s (m * 2 ^ k) (e - k) loc_Exact
  = binary_round_aux prec emax s m e loc_Exact.
Proof.
  intros [Hm He] Hk. pose proof (pow2_pos k Hk) as Hp.
  assert (Hd : Zdigits2 (m * 2 ^ k) + (e - k) = Zdigits2 m + e)
    by (rewrite digits_shift by lia; lia).
  rewrite !binary_round_aux_spec; try lia; try nia.
  - rewrite Hd. f_equal.
    replace (fexp prec emax (Zdigits2 m + e) - (e - k))
      with (fexp prec emax (Zdigits2 m + e) - e + k) by lia.
    apply rne_shift; lia.
  - rewrite Hd. lia.
Qed.

Lemma val_le_at (c m1 e1 m2 e2 : Z) :
  c <= e1 -> c <= e2 ->
  val_le m1 e1 m2 e2 <-> m1 * 2 ^ (e1 - c) <= m2 * 2 ^ (e2 - c).
Proof.
  intros H1 H2. unfold val_le. set (m := Z.min e1 e2).
  assert (Hm : c <= m) by (unfold m; lia).
  replace (e1 - c) with ((e1 - m) + (m - c)) by lia.
  replace (e2 - c) with ((e2 - m) + (m - c)) by lia.
  rewrite !Z.pow_add_r by (unfold m; lia).
  pose proof (pow2_pos (m - c) ltac:(lia)) as Hp.
  rewrite !Z.mul_assoc. split; intros H; nia.
Qed.

Lemma round_mono_gen (m1 e1 m2 e2 : Z) :
  aligned m1 e1 -> aligned m2 e2 -> val_le m1 e1 m2 e2 ->
  SFleb (binary_round_aux prec emax false m1 e1 loc_Exact)
        (binary_round_aux prec emax false m2 e2 loc_Exact) = true.
Proof.
  intros A1 A2 Hv. destruct (Z_le_gt_dec e1 e2) as [Hle|Hgt].
  - destruct A1 as [Hm1 He1], A2 as [Hm2 He2].
    apply round_mono; try assumption.
    apply (val_le_at e1) in Hv; [|lia|lia].
    rewrite Z.sub_diag in Hv. change (2 ^ 0) with 1 in Hv. lia.
  - rewrite <- (binary_round_aux_shift false m1 e1 (e1 - e2) A1) by lia.
    replace (e1 - (e1 - e2)) with e2 by lia.
    apply (val_le_at e2) in Hv; [|lia|lia].
    rewrite Z.sub_diag in Hv. change (2 ^ 0) with 1 in Hv.
    destruct A1 as [Hm1 He1], A2 as [Hm2 He2].
    pose proof (pow2_pos (e1 - e2) ltac:(lia)) as Hp.
    apply round_mono; [nia|lia| |lia|lia|].
    + rewrite digits_shift by lia. replace (Zdigits2 m1 + (e1 - e2) + e2)
        with (Zdigits2 m1 + e1) by lia. lia.
    + rewrite Z.sub_diag. change (2 ^ 0) with 1. lia.
Qed.

Lemma binary_round_mono (m1 m2 : positive) (e1 e2 : Z) :
  val_le (Z.pos m1) e1 (Z.pos m2) e2 ->
  SFleb (binary_round prec emax false m1 e1) (binary_round prec emax false m2 e2) = true.
Proof.
  intros Hv.
  destruct (binary_round_aligned false m1 e1) as (M1 & z1 & -> & A1 & Hz1 & HM1).
  destruct (binary_round_aligned false m2 e2) as (M2 & z2 & -> & A2 & Hz2 & HM2).
  apply round_mono_gen; try assumption.
  set (c := Z.min z1 z2).
  apply (val_le_at c); [unfold c; lia|unfold c; lia|].
  apply (val_le_at c) in Hv; [|unfold c; lia|unfold c; lia].
  rewrite HM1, HM2, <- !Z.mul_assoc, <- !Z.pow_add_r by (unfold c; lia).
  replace (e1 - z1 + (z1 - c)) with (e1 - c) by lia.
  replace (e2 - z2 + (z2 - c)) with (e2 - c) by lia.
  exact Hv.
Qed.

(** ** Validity of rounded results *)

Lemma rne_lower (m n : Z) :
  0 < m -> 0 <= n -> n = Zdigits2 m - 53 -> 2 ^ 52 <= rne m n.
Proof.
  intros Hm Hn Hd. pose proof (digits_bounds m Hm) as [Hlo _].
  rewrite <- (rne_exact (2 ^ 52) n) at 1 by lia.
  apply rne_mono; [lia|].
  rewrite <- Z.pow_add_r by lia. replace (52 + n) with (Zdigits2 m - 1) by lia.
  exact Hlo.
Qed.

Lemma binary_round_aux_valid (s : bool) (m e : Z) :
  aligned m e -> valid_binary (binary_round_aux prec emax s m e loc_Exact) = true.
Proof.
  intros [Hm He]. rewrite binary_round_aux_spec by assumption.
  rewrite fexp_eq in *. set (E := Z.max (Zdigits2 m + e - 53) (-1074)) in *.
  assert (HM : 0 <= rne m (E - e) <= 2 ^ 53).
  { split; [apply rne_nonneg; lia|apply rne_upper; lia]. }
  assert (Hnorm : -1074 < E -> 2 ^ 52 <= rne m (E - e)).
  { intros HE. apply rne_lower; lia. }
  unfold finish.
  destruct (Z.eqb_spec (rne m (E - e)) 0) as [|H0]; [reflexivity|].
  destruct (Z.eqb_spec (rne m (E - e)) (2 ^ 53)) as [|H53].
  - destruct (Z.leb_spec (E + 1) 971) as [Hle|]; [|reflexivity].
    cbn [valid_binary]. unfold bounded, canonical_mantissa. rewrite fexp_eq.
    change (Z.pos (digits2_pos (2 ^ 52))) with 53.
    apply andb_true_iff. split; [apply Z.eqb_eq; lia|apply Z.leb_le; exact Hle].
  - destruct (Z.leb_spec E 971) as [Hle|]; [|reflexivity].
    cbn [valid_binary]. unfold bounded, canonical_mantissa. rewrite fexp_eq.
    set (M := rne m (E - e)) in *.
    assert (HdM : Zdigits2 M <= 53) by (apply digits_le; lia).
    assert (Hd' : -1074 < E -> 52 < Zdigits2 M).
    { intros HE. apply digits_gt; [lia|]. apply Hnorm. exact HE. }
    assert (Hpos : Z.pos (Z.to_pos M) = M) by (apply Z2Pos.id; lia).
    change (Z.pos (digits2_pos (Z.to_pos M))) with (Zdigits2 (Z.pos (Z.to_pos M))).
    rewrite Hpos.
    apply andb_true_iff. split; [apply Z.eqb_eq; lia|apply Z.leb_le; exact Hle].
Qed.

Lemma binary_round_valid (s : bool) (m : positive) (e : Z) :
  valid_binary (binary_round prec emax s m e) = true.
Proof.
  destruct (binary_round_aligned s m e) as (M & ez & -> & A & _).
  apply binary_round_aux_valid. exact A.
Qed.

Lemma binary_normalize_valid (z : Z) :
  valid_binary (binary_normalize prec emax z 0 false) = true.
Proof. destruct z; [reflexivity|apply binary_round_valid..]. Qed.

(** A canonical float rounds to itself. *)
Lemma binary_round_aux_canonical (s : bool) (m : positive) (e : Z) :
  bounded prec emax m e = true ->
  binary_round_aux prec emax s (Z.pos m) e loc_Exact = S754_finite s m e.
Proof.
  intros Hb. pose proof (canonical_cases m e Hb) as (Hd & He & Hcase).
  unfold bounded in Hb. apply andb_true_iff in Hb as [_ Hmax%Z.leb_le].
  change (emax - prec) with 971 in Hmax. cbn [Zdigits2] in Hd, Hcase.
  rewrite binary_round_aux_spec; [|lia|rewrite fexp_eq; cbn [Zdigits2]; lia].
  rewrite fexp_eq. cbn [Zdigits2].
  replace (Z.max (Z.pos (digits2_pos m) + e - 53) (-1074)) with e by lia.
  rewrite Z.sub_diag. unfold rne. change (2 ^ 0) with 1.
  rewrite Z.div_1_r, Z.mod_1_r. change (2 * 0 <? 1) with true. cbv iota.
  unfold finish.
  pose proof (digits_bounds (Z.pos m) ltac:(lia)) as [_ Hhi]. cbn [Zdigits2] in Hhi.
  assert (2 ^ Z.pos (digits2_pos m) <= 2 ^ 53) by (apply Z.pow_le_mono_r; lia).
  destruct (Z.eqb_spec (Z.pos m) 0); [lia|].
  destruct (Z.eqb_spec (Z.pos m) (2 ^ 53)); [lia|].
  destruct (Z.leb_spec e 971); [reflexivity|lia].
Qed.

Lemma canonical_aligned (m : positive) (e : Z) :
  bounded prec emax m e = true -> aligned (Z.pos m) e.
Proof.
  intros Hb. pose proof (canonical_cases m e Hb) as (Hd & He & Hcase).
  split; [lia|]. rewrite fexp_eq. lia.
Qed.

Lemma binary_round_canonical (s : bool) (m : positive) (e : Z) :
  bounded prec emax m e = true ->
  binary_round prec emax s m e = S754_finite s m e.
Proof.
  intros Hb. pose proof (canonical_cases m e Hb) as (Hd & He & Hcase).
  unfold binary_round.
  pose proof (shl_align_spec m e (fexp prec emax (Z.pos (digits2_pos m) + e))) as H.
  destruct (shl_align m e _) as [mz ez]. destruct H as [Hez Hmz].
  rewrite fexp_eq in Hez. cbn [Zdigits2] in Hd, Hcase.
  assert (Hezeq : ez = e) by lia. clear Hez. subst ez.
  rewrite Z.sub_diag in Hmz. assert (Hmzeq : mz = m) by lia. clear Hmz. subst mz.
  apply binary_round_aux_canonical. exact Hb.
Qed.

(** ** The order of floats *)

Lemma SFleb_refl (x : spec_float) : x <> S754_nan -> SFleb x x = true.
Proof.
  intros Hx. destruct x as [s|[|]| |[|] m e]; try reflexivity; try contradiction;
    unfold SFleb, SFcompare; rewrite Z.compare_refl, Pos.compare_cont_refl; reflexivity.
Qed.

Ltac cmp_cases :=
  repeat match goal with
         | H : context [Z.compare ?a ?b] |- _ => destruct (Z.compare_spec a b); try discriminate
         | |- context [Z.compare ?a ?b] => destruct (Z.compare_spec a b); try lia
         | H : context [Pos.compare_cont Eq ?a ?b] |- _ =>
             change (Pos.compare_cont Eq a b) with (Pos.compare a b) in H
         | |- context [Pos.compare_cont Eq ?a ?b] =>
             change (Pos.compare_cont Eq a b) with (Pos.compare a b)
         | H : context [Pos.compare ?a ?b] |- _ => destruct (Pos.compare_spec a b); try discriminate
         | |- context [Pos.compare ?a ?b] => destruct (Pos.compare_spec a b); try lia
         end.

Lemma SFcompare_trans (c : comparison) (x y z : spec_float) :
  SFcompare x y = Some c -> (SFcompare y z = Some c \/ SFcompare y z = Some Eq) ->
  c <> Gt -> SFcompare x z = Some c.
Proof.
  intros Hxy Hyz Hc.
  destruct x as [sx|[|]| |[|] mx ex], y as [sy|[|]| |[|] my ey], z as [sz|[|]| |[|] mz ez];
    cbn in Hxy, Hyz |- *; try discriminate;
    destruct c; try congruence;
    try (destruct Hyz as [Hyz|Hyz]; discriminate);
    try reflexivity;
    destruct Hyz as [Hyz|Hyz];
    injection Hxy as Hxy; injection Hyz as Hyz; f_equal;
    cmp_cases; subst; cbn in *; try congruence; try lia.
Qed.

Lemma SFcompare_eq_l (x y z : spec_float) :
  SFcompare x y = Some Eq -> SFcompare x z = SFcompare y z.
Proof.
  intros Hxy.
  destruct x as [sx|[|]| |[|] mx ex], y as [sy|[|]| |[|] my ey];
    cbn in Hxy; try discriminate; try reflexivity;
    injection Hxy as Hxy; cmp_cases; subst;
    try (apply Pos.compare_eq in Hxy); try discriminate;
    try reflexivity.
Qed.

Lemma SFleb_trans (x y z : spec_float) :
  SFleb x y = true -> SFleb y z = true -> SFleb x z = true.
Proof.
  unfold SFleb. intros Hxy Hyz.
  destruct (SFcompare x y) as [[| |]|] eqn:Cxy; try discriminate;
    destruct (SFcompare y z) as [[| |]|] eqn:Cyz; try discriminate.
  - rewrite (SFcompare_eq_l x y z Cxy), Cyz. reflexivity.
  - rewrite (SFcompare_eq_l x y z Cxy), Cyz. reflexivity.
  - rewrite (SFcompare_trans Lt x y z Cxy); [reflexivity|right; exact Cyz|discriminate].
  - rewrite (SFcompare_trans Lt x y z Cxy); [reflexivity|left; exact Cyz|discriminate].
Qed.

Lemma SFltb_leb_trans (x y z : spec_float) :
  SFltb x y = true -> SFleb y z = true -> SFltb x z = true.
Proof.
  unfold SFleb, SFltb. intros Hxy Hyz.
  destruct (SFcompare x y) as [[| |]|] eqn:Cxy; try discriminate;
    destruct (SFcompare y z) as [[| |]|] eqn:Cyz; try discriminate.
  - rewrite (SFcompare_trans Lt x y z Cxy); [reflexivity|right; exact Cyz|discriminate].
  - rewrite (SFcompare_trans Lt x y z Cxy); [reflexivity|left; exact Cyz|discriminate].
Qed.

Lemma SFleb_ltb_trans (x y z : spec_float) :
  SFleb x y = true -> SFltb y z = true -> SFltb x z = true.
Proof.
  unfold SFleb, SFltb. intros Hxy Hyz.
  destruct (SFcompare x y) as [[| |]|] eqn:Cxy; try discriminate;
    destruct (SFcompare y z) as [[| |]|] eqn:Cyz; try discriminate.
  - rewrite (SFcompare_eq_l x y z Cxy), Cyz. reflexivity.
  - rewrite (SFcompare_trans Lt x y z Cxy); [reflexivity|left; exact Cyz|discriminate].
Qed.

Lemma leb_trans (x y z : float) :
  (x <=? y)%float = true -> (y <=? z)%float = true -> (x <=? z)%float = true.
Proof. rewrite !leb_spec. apply SFleb_trans. Qed.

Lemma ltb_leb_trans (x y z : float) :
  (x <? y)%float = true -> (y <=? z)%float = true -> (x <? z)%float = true.
Proof. rewrite !leb_spec, !ltb_spec. apply SFltb_leb_trans. Qed.

Lemma leb_ltb_trans (x y z : float) :
  (x <=? y)%float = true -> (y <? z)%float = true -> (x <? z)%float = true.
Proof. rewrite !leb_spec, !ltb_spec. apply SFleb_ltb_trans. Qed.

Lemma leb_refl (x : float) : (x <=? x)%float = true \/ Prim2SF x = S754_nan.
Proof.
  rewrite leb_spec. destruct (Prim2SF x) eqn:Hx; try (left; apply SFleb_refl; discriminate).
  right. reflexivity.
Qed.

(** ** Int-to-float conversion *)

Lemma round_int_spec (z : Z) : Prim2SF (round_int z) = binary_normalize prec emax z 0 false.
Proof. unfold round_int. apply Prim2SF_SF2Prim. apply binary_normalize_valid. Qed.

Lemma round_int_nonneg (z : Z) : 0 <= z -> (0 <=? round_int z)%float = true.
Proof.
  intros Hz. apply nonneg_spec. rewrite round_int_spec.
  destruct z as [|p|p]; try lia; [reflexivity|].
  cbn [binary_normalize].
  destruct (binary_round_aligned false p 0) as (M & ez & -> & [HM _] & _).
  apply binary_round_aux_nonneg. lia.
Qed.

Lemma round_int_mono (z1 z2 : Z) :
  0 <= z1 <= z2 -> (round_int z1 <=? round_int z2)%float = true.
Proof.
  intros Hz. destruct (Z.eq_dec z1 0) as [->|Hne].
  - apply round_int_nonneg. lia.
  - rewrite leb_spec, !round_int_spec.
    destruct z1 as [|p1|p1], z2 as [|p2|p2]; try lia.
    cbn [binary_normalize]. apply binary_round_mono.
    unfold val_le. rewrite Z.min_id, Z.sub_diag. change (2 ^ 0) with 1. lia.
Qed.

Lemma is_infinity_spec (x : float) :
  is_infinity x = match Prim2SF x with S754_infinity _ => true | _ => false end.
Proof.
  unfold is_infinity. rewrite FloatAxioms.eqb_spec, abs_spec.
  change (Prim2SF infinity) with (S754_infinity false).
  destruct (Prim2SF x) as [s|s| |s m e]; reflexivity.
Qed.

(** ** Multiplication *)

Lemma mul_comm (x y : float) : (x * y)%float = (y * x)%float.
Proof.
  apply Prim2SF_inj. rewrite !mul_spec.
  destruct (Prim2SF x) as [sx|sx| |sx mx ex], (Prim2SF y) as [sy|sy| |sy my ey];
    cbn [SF64mul SFmul]; rewrite ?(xorb_comm sx sy); try reflexivity.
  rewrite (Pos.mul_comm mx my), (Z.add_comm ex ey). reflexivity.
Qed.

Lemma mul_le_mono_r (t a b : float) :
  (0 <=? t)%float = true -> (0 <? a)%float = true -> (a <=? b)%float = true ->
  (b <? infinity)%float = true ->
  (a * t <=? b * t)%float = true.
Proof.
  intros. rewrite (mul_comm a t), (mul_comm b t). apply mul_le_mono_l; assumption.
Qed.

Lemma mul_one_r (x : float) : (x * 1)%float = x.
Proof.
  apply Prim2SF_inj. rewrite mul_spec.
  change (Prim2SF 1) with (S754_finite false 4503599627370496 (-52)).
  pose proof (Prim2SF_valid x) as Hv.
  destruct (Prim2SF x) as [sx|sx| |sx mx ex]; cbn [SF64mul SFmul];
    rewrite ?xorb_false_r; try reflexivity.
  cbn [valid_binary] in Hv.
  rewrite Pos2Z.inj_mul. change (Z.pos 4503599627370496) with (2 ^ 52).
  replace (ex + -52) with (ex - 52) by lia.
  rewrite binary_round_aux_shift by (try apply canonical_aligned; try assumption; lia).
  apply binary_round_aux_canonical. exact Hv.
Qed.

(** ** Addition *)

Lemma SFadd_finite (mx my : positive) (ex ey : Z) :
  exists m : positive,
    SFadd prec emax (S754_finite false mx ex) (S754_finite false my ey)
    = binary_round prec emax false m (Z.min ex ey)
    /\ Z.pos m = Z.pos mx * 2 ^ (ex - Z.min ex ey) + Z.pos my * 2 ^ (ey - Z.min ex ey).
Proof.
  cbn [SFadd cond_Zopp].
  pose proof (shl_align_spec mx ex (Z.min ex ey)) as Hx.
  pose proof (shl_align_spec my ey (Z.min ex ey)) as Hy.
  destruct (shl_align mx ex (Z.min ex ey)) as [mx' ex'].
  destruct (shl_align my ey (Z.min ex ey)) as [my' ey']. cbn [fst].
  destruct Hx as [Hex Hmx], Hy as [Hey Hmy].
  exists (mx' + my')%positive. split; [reflexivity|].
  rewrite Pos2Z.inj_add, Hmx, Hmy.
  replace ex' with (Z.min ex ey) by lia. replace ey' with (Z.min ex ey) by lia.
  reflexivity.
Qed.

Lemma sf_nonneg_le_inf (x : spec_float) :
  sf_nonneg x -> SFleb x (S754_infinity false) = true.
Proof. intros [[s ->]|[->|(m & e & ->)]]%sf_nonneg_cases; reflexivity. Qed.

Lemma SFadd_le_mono_l (x x' y : spec_float) :
  valid_binary x = true -> valid_binary x' = true -> valid_binary y = true ->
  sf_nonneg x -> sf_nonneg y -> SFleb x x' = true ->
  SFleb (SFadd prec emax x y) (SFadd prec emax x' y) = true.
Proof.
  intros Vx Vx' Vy Hx Hy Hle.
  apply sf_nonneg_cases in Hx as [[sx ->]|[->|(mx & ex & ->)]];
    apply sf_nonneg_cases in Hy as [[sy ->]|[->|(my & ey & ->)]];
    destruct x' as [sx'|[|]| |[|] mx' ex']; try discriminate Hle;
    try (destruct sx; reflexivity);
    try (destruct sx, sx', sy; reflexivity);
    try (destruct sx, sy; reflexivity);
    try reflexivity.
  - (* zero + finite, zero + finite *)
    cbn [SFadd]. apply SFleb_refl. discriminate.
  - (* zero + finite <= finite + finite *)
    destruct (SFadd_finite mx' my ex' ey) as (m & -> & Hm).
    change (SFadd prec emax (S754_zero sx) (S754_finite false my ey))
      with (S754_finite false my ey).
    cbn [valid_binary] in Vy. rewrite <- (binary_round_canonical false my ey Vy).
    apply binary_round_mono.
    apply (val_le_at (Z.min ex' ey)); [lia|lia|].
    rewrite Z.sub_diag. change (2 ^ 0) with 1. rewrite Hm.
    pose proof (pow2_pos (ex' - Z.min ex' ey) ltac:(lia)). nia.
  - (* finite + zero <= finite + zero *)
    exact Hle.
  - (* finite + finite <= inf *)
    destruct (SFadd_finite mx my ex ey) as (m & -> & Hm).
    change (SFadd prec emax (S754_infinity false) (S754_finite false my ey))
      with (S754_infinity false).
    apply sf_nonneg_le_inf.
    destruct (binary_round_aligned false m (Z.min ex ey)) as (M & ez & -> & [HM _] & _).
    apply binary_round_aux_nonneg. lia.
  - (* finite + finite <= finite + finite *)
    destruct (SFadd_finite mx my ex ey) as (m1 & -> & Hm1).
    destruct (SFadd_finite mx' my ex' ey) as (m2 & -> & Hm2).
    cbn [valid_binary] in Vx, Vx'.
    destruct (finite_le_values _ _ _ _ Vx Vx' Hle) as [He Hm].
    apply binary_round_mono.
    apply (val_le_at (Z.min ex ey)); [lia|lia|].
    rewrite Z.sub_diag. change (2 ^ 0) with 1. rewrite Hm1, Hm2.
    set (c := Z.min ex ey) in *. set (c' := Z.min ex' ey) in *.
    assert (Hc : c <= c') by (unfold c, c'; lia).
    assert (P1 : 2 ^ (ex' - c') * 2 ^ (c' - c) = 2 ^ (ex' - ex) * 2 ^ (ex - c)).
    { rewrite <- !Z.pow_add_r by (unfold c, c'; lia). f_equal. lia. }
    assert (P2 : 2 ^ (ey - c') * 2 ^ (c' - c) = 2 ^ (ey - c)).
    { rewrite <- !Z.pow_add_r by (unfold c, c'; lia). f_equal. lia. }
    pose proof (pow2_pos (ex - c) ltac:(unfold c; lia)).
    pose proof (pow2_pos (ey - c) ltac:(unfold c; lia)).
    pose proof (pow2_pos (ex' - ex) ltac:(lia)).
    rewrite Z.mul_1_r, Z.mul_add_distr_r, <- !Z.mul_assoc, P1, P2.
    apply Z.add_le_mono_r. rewrite Z.mul_assoc.
    apply Z.mul_le_mono_nonneg_r; lia.
Qed.

Lemma add_comm (x y : float) : (x + y)%float = (y + x)%float.
Proof.
  apply Prim2SF_inj. rewrite !add_spec.
  destruct (Prim2SF x) as [[|]|[|]| |sx mx ex], (Prim2SF y) as [[|]|[|]| |sy my ey];
    try reflexivity.
  cbn [SF64add SFadd]. rewrite (Z.min_comm ey ex), Z.add_comm. reflexivity.
Qed.

Lemma add_le_mono_l (x x' y : float) :
  (0 <=? x)%float = true -> (0 <=? y)%float = true -> (x <=? x')%float = true ->
  (x + y <=? x' + y)%float = true.
Proof.
  intros Hx%nonneg_spec Hy%nonneg_spec Hle. rewrite leb_spec in *. rewrite !add_spec.
  apply SFadd_le_mono_l; try apply Prim2SF_valid; assumption.
Qed.

Lemma add_le_mono_r (x y y' : float) :
  (0 <=? x)%float = true -> (0 <=? y)%float = true -> (y <=? y')%float = true ->
  (x + y <=? x + y')%float = true.
Proof.
  intros. rewrite (add_comm x y), (add_comm x y'). apply add_le_mono_l; assumption.
Qed.

Lemma add_le_mono (x x' y y' : float) :
  (0 <=? x)%float = true -> (0 <=? y)%float = true ->
  (x <=? x')%float = true -> (y <=? y')%float = true ->
  (x + y <=? x' + y')%float = true.
Proof.
  intros Hx Hy Hxx Hyy.
  apply (leb_trans _ (x' + y)%float).
  - apply add_le_mono_l; assumption.
  - apply add_le_mono_r; try assumption. apply (leb_trans _ x); assumption.
Qed.

Lemma ltb_nonneg (x : float) : (0 <? x)%float = true -> (0 <=? x)%float = true.
Proof.
  rewrite ltb_spec, leb_spec. change (Prim2SF 0) with (S754_zero false).
  destruct (Prim2SF x) as [s|[|]| |[|] m e]; cbn; congruence.
Qed.

Lemma le_add_r (x y : float) :
  (0 <? x)%float = true -> (0 <=? y)%float = true -> (x <=? x + y)%float = true.
Proof.
  intros Hx Hy. pose proof (ltb_nonneg x Hx) as Hx0.
  assert (H0 : (x + 0)%float = x).
  { apply add_zero_r. rewrite ltb_spec in Hx. intros E. rewrite E in Hx. discriminate. }
  rewrite <- H0 at 1. apply add_le_mono_r; [exact Hx0|reflexivity|exact Hy].
Qed.

Lemma mul_le_mono (a b c d : float) :
  (0 <? a)%float = true -> (a <=? b)%float = true -> (b <? infinity)%float = true ->
  (0 <? c)%float = true -> (c <=? d)%float = true -> (d <? infinity)%float = true ->
  (a * c <=? b * d)%float = true.
Proof.
  intros Ha Hab Hb Hc Hcd Hd.
  apply (leb_trans _ (a * d)%float).
  - apply mul_le_mono_l; try assumption. apply ltb_nonneg. exact Ha.
  - apply mul_le_mono_r; try assumption. apply ltb_nonneg.
    apply (ltb_leb_trans _ c); assumption.
Qed.

(** ** Differences and quotients that stay finite *)










(** ** The forecast *)

Lemma pos_nonneg (x : float) : (0 <? x)%float = true -> (0 <=? x)%float = true.
Proof.
  rewrite ltb_spec, leb_spec. change (Prim2SF 0) with (S754_zero false).
  destruct (Prim2SF x) as [s|[|]| |[|] m e]; cbn; congruence.
Qed.

Lemma nonneg_not_negative (x : float) :
  (0 <=? x)%float = true -> (x <? 0)%float = false.
Proof.
  rewrite ltb_spec, leb_spec. change (Prim2SF 0) with (S754_zero false).
  destruct (Prim2SF x) as [s|[|]| |[|] m e]; cbn; congruence.
Qed.








(** *** The first point of the trend *)











(** * Part IV: further properties of the code *)

(** ** Ranges *)

Lemma in_range_weaken (lo hi lo' hi' x : float) :
  in_range lo hi x -> (lo' <=? lo)%float = true -> (hi <=? hi')%float = true ->
  in_range lo' hi' x.
Proof.
  intros [Hlo Hhi] H1 H2. split.
  - apply (leb_trans _ lo); assumption.
  - apply (leb_trans _ hi); assumption.
Qed.

Lemma in_range_positive (lo hi x : float) :
  positive_finite lo = true -> positive_finite hi = true -> in_range lo hi x ->
  positive_finite x = true.
Proof.
  intros [Hlo _]%andb_true_iff [_ Hhi]%andb_true_iff [H1 H2].
  apply andb_true_iff. split.
  - apply (ltb_leb_trans _ lo); assumption.
  - apply (leb_ltb_trans _ hi); assumption.
Qed.

Lemma mul_in_range (a b c d x y : float) :
  in_range a b x -> in_range c d y ->
  positive_finite a = true -> positive_finite b = true ->
  positive_finite c = true -> positive_finite d = true ->
  in_range (a * c) (b * d) (x * y).
Proof.
  intros Hx Hy Pa Pb Pc Pd.
  pose proof (in_range_positive _ _ _ Pa Pb Hx) as [Hx0 Hxi]%andb_true_iff.
  pose proof (in_range_positive _ _ _ Pc Pd Hy) as [Hy0 Hyi]%andb_true_iff.
  apply andb_true_iff in Pa as [Ha0 _]. apply andb_true_iff in Pb as [_ Hbi].
  apply andb_true_iff in Pc as [Hc0 _]. apply andb_true_iff in Pd as [_ Hdi].
  destruct Hx as [Hax Hxb], Hy as [Hcy Hyd].
  split; apply mul_le_mono; assumption.
Qed.

Lemma add_in_range (a b c d x y : float) :
  in_range a b x -> in_range c d y ->
  (0 <=? a)%float = true -> (0 <=? c)%float = true ->
  in_range (a + c) (b + d) (x + y).
Proof.
  intros [Hax Hxb] [Hcy Hyd] Ha Hc. split.
  - apply add_le_mono; assumption.
  - apply add_le_mono; try assumption.
    + apply (leb_trans _ a); assumption.
    + apply (leb_trans _ c); assumption.
Qed.

Lemma round_int_in_range (lo hi z : Z) :
  0 <= lo -> lo <= z <= hi -> in_range (round_int lo) (round_int hi) (round_int z).
Proof. intros Hlo Hz. split; apply round_int_mono; lia. Qed.

Lemma BASE_RATES_bounds : map_Forall (fun _ rate => 25000 <= rate <= 190000) BASE_RATES.
Proof. apply (bool_decide_unpack _). vm_compute. exact I. Qed.

Lemma base_rate_range (loc : string) :
  in_range 25000 190000 (round_int (dict_get BASE_RATES loc 50000%Z)).
Proof.
  assert (H : 25000 <= dict_get BASE_RATES loc 50000 <= 190000).
  { unfold dict_get. destruct (BASE_RATES !! loc) as [rate|] eqn:Hloc; [|lia].
    exact (BASE_RATES_bounds loc rate Hloc). }
  exact (round_int_in_range 25000 190000 _ ltac:(lia) H).
Qed.

Lemma dict_get_in_range (d : gmap string float) (key : string) (default lo hi : float) :
  map_Forall (fun _ f => ((lo <=? f) && (f <=? hi))%float = true) d ->
  in_range lo hi default ->
  in_range lo hi (dict_get d key default).
Proof.
  intros Hd Hdef. unfold dict_get. destruct (d !! key) as [f|] eqn:Hkey; [|exact Hdef].
  apply andb_true_iff. exact (Hd key f Hkey).
Qed.

Lemma road_factor_range (label : string) :
  in_range 0.95 1.15 (dict_get (ROAD_WIDTH_FACTORS default_config) label 1.0%float).
Proof.
  apply dict_get_in_range; [|split; reflexivity].
  apply (bool_decide_unpack _). vm_compute. exact I.
Qed.

Lemma quality_range (label : string) :
  in_range 0.85 1.60 (dict_get (QUALITY_MULTIPLIERS default_config) label 1.0%float).
Proof.
  apply dict_get_in_range; [|split; reflexivity].
  apply (bool_decide_unpack _). vm_compute. exact I.
Qed.

Lemma depreciation_range (current construction_year : Z) :
  in_range 0.55 1.10 (calculate_depreciation_factor current construction_year).
Proof.
  unfold calculate_depreciation_factor.
  repeat match goal with
         | |- context [?a <=? ?b] => destruct (a <=? b)
         end; split; reflexivity.
Qed.

(** The land value of a plot of 50 to 4000 square yards. *)
Lemma land_value_range (p : Params) :
  50 <= area p <= 4000 ->
  in_range 1187500 873999999.9999999 (land_value_of default_config p).
Proof.
  intros Harea. unfold land_value_of.
  pose proof (round_int_in_range 50 4000 (area p) ltac:(lia) Harea) as Ha.
  pose proof (mul_in_range _ _ _ _ _ _
                (base_rate_range (location p)) (road_factor_range (road_width p))
                eq_refl eq_refl eq_refl eq_refl) as Ht.
  exact (mul_in_range _ _ _ _ _ _ Ht Ha eq_refl eq_refl eq_refl eq_refl).
Qed.

Lemma leb_refl_nonneg (x : float) : (0 <=? x)%float = true -> (x <=? x)%float = true.
Proof.
  intros Hx. destruct (leb_refl x) as [H|H]; [exact H|].
  rewrite leb_spec, H in Hx. discriminate.
Qed.

Lemma in_range_refl (lo hi x : float) : in_range lo hi x -> (x <=? x)%float = true.
Proof.
  intros [Hlo _]. destruct (leb_refl x) as [H|H]; [exact H|].
  rewrite leb_spec, H in Hlo. destruct (Prim2SF lo) as [?|[|]| |[|] ? ?]; discriminate.
Qed.

Lemma le_add_nonneg (x y : float) :
  (0 <=? x)%float = true -> (0 <=? y)%float = true -> (x <=? x + y)%float = true.
Proof.
  intros Hx Hy. apply (leb_trans _ (x + 0)%float).
  - rewrite leb_spec, add_spec. rewrite leb_spec in Hx.
    change (Prim2SF 0) with (S754_zero false) in *.
    destruct (Prim2SF x) as [[|]|[|]| |[|] m e]; try discriminate; try reflexivity.
    apply SFleb_refl. discriminate.
  - apply add_le_mono_r; [exact Hx|reflexivity|exact Hy].
Qed.

(** ** Depreciation is monotone *)

Lemma depreciation_mono (current year1 year2 : Z) :
  year1 <= year2 ->
  (calculate_depreciation_factor current year1
   <=? calculate_depreciation_factor current year2)%float = true.
Proof.
  intros Hy. unfold calculate_depreciation_factor, property_age.
  repeat match goal with
         | |- context [?a <=? ?b] => destruct (Z.leb_spec a b); try lia
         end; reflexivity.
Qed.

(** ** Feature premiums *)

Lemma add_premium_range (flag : bool) (land_value k f llo lhi flo fhi : float) :
  in_range llo lhi land_value -> in_range flo fhi f ->
  positive_finite llo = true -> positive_finite lhi = true -> positive_finite k = true ->
  (0 <=? flo)%float = true ->
  in_range (if flag then flo + llo * k else flo) (if flag then fhi + lhi * k else fhi)
    (add_premium flag land_value k f).
Proof.
  intros Hland Hf Pl Ph Pk Hf0. unfold add_premium. destruct flag; [|exact Hf].
  apply add_in_range; try assumption.
  - apply mul_in_range; try assumption. split; apply leb_refl_nonneg; apply ltb_nonneg;
      apply andb_true_iff in Pk as [Hk _]; exact Hk.
  - apply mul_nonneg_pf; [|exact Pk]. apply andb_true_iff in Pl as [Hl _].
    apply ltb_nonneg. exact Hl.
Qed.

Lemma features_range (p : Params) :
  50 <= area p <= 4000 ->
  in_range 0 262199999.99999997 (features_of default_config p)
  /\ (is_corner p || is_park p || is_west_open p = true ->
      in_range 59375 262199999.99999997 (features_of default_config p))
  /\ (is_corner p || is_park p || is_west_open p = false ->
      features_of default_config p = 0%float).
Proof.
  intros Harea. pose proof (land_value_range p Harea) as Hland. unfold features_of.
  set (l := land_value_of default_config p) in *.
  destruct (is_corner p) eqn:Hc, (is_park p) eqn:Hp, (is_west_open p) eqn:Hw;
    match goal with
    | |- context [add_premium ?w l _ (add_premium ?pk l _ (add_premium ?c l _ _))] =>
        pose proof (add_premium_range c l 0.15 0 1187500 873999999.9999999 0 0
                      Hland (conj eq_refl eq_refl) eq_refl eq_refl eq_refl eq_refl) as H1;
        cbv iota in H1;
        pose proof (add_premium_range pk l 0.10 _ 1187500 873999999.9999999 _ _
                      Hland H1 eq_refl eq_refl eq_refl eq_refl) as H2;
        cbv iota in H2;
        pose proof (add_premium_range w l 0.05 _ 1187500 873999999.9999999 _ _
                      Hland H2 eq_refl eq_refl eq_refl eq_refl) as H3;
        cbv iota in H3
    end;
    (split; [apply (in_range_weaken _ _ _ _ _ H3); reflexivity|]);
    (split; [intros Hflag; try discriminate Hflag;
             apply (in_range_weaken _ _ _ _ _ H3); reflexivity
            |intros Hflag; try discriminate Hflag; reflexivity]).
Qed.

(** ** The ranges of a valid request's estimate *)

Lemma raw_structure_range (b : Z) :
  1 <= b <= 12 ->
  in_range 1200000 14400000 (round_int (b * ROOM_PREMIUM default_config)).
Proof.
  intros Hb. change (ROOM_PREMIUM default_config) with 1200000.
  apply (round_int_in_range 1200000 14400000 (b * 1200000)); lia.
Qed.

Lemma valid_breakdown_ranges (current : Z) (p : Params) (variance : float) (r : Estimate) :
  valid_request p ->
  calculate_estimate default_config current p variance = Ok r ->
  let b := breakdown r in
  in_range 1187500 873999999.9999999 (land b)
  /\ in_range 0 25344000.000000004 (structure b)
  /\ in_range 0 262199999.99999997 (features b)
  /\ in_range 1187500 1161544000 (land b + structure b + features b)
  /\ in_range 1187500 2000000000 (pre_variance b).
Proof.
  intros (_ & Harea & Htype & _ & _ & Hres) Hr b.
  destruct (calculate_estimate_inv _ _ _ _ _ Hr)
    as (_ & _ & Hland & Hstruct & Hfeat & Hpre & _).
  fold b in Hland, Hstruct, Hfeat, Hpre.
  assert (Rl : in_range 1187500 873999999.9999999 (land b))
    by (rewrite Hland; apply land_value_range; exact Harea).
  assert (Rf : in_range 0 262199999.99999997 (features b))
    by (rewrite Hfeat; apply features_range; exact Harea).
  assert (Rs : in_range 0 25344000.000000004 (structure b)).
  { destruct (String.eqb_spec (type p) "Residential") as [Ht|Ht].
    - destruct Hstruct as (_ & Hd & ->). rewrite Hd.
      destruct (Hres Ht) as [Hb _].
      pose proof (mul_in_range _ _ _ _ _ _
                    (raw_structure_range _ Hb) (quality_range (quality p))
                    eq_refl eq_refl eq_refl eq_refl) as H1.
      pose proof (mul_in_range _ _ _ _ _ _
                    H1 (depreciation_range current (year_built p))
                    eq_refl eq_refl eq_refl eq_refl) as H2.
      apply (in_range_weaken _ _ _ _ _ H2); reflexivity.
    - destruct Hstruct as [_ ->]. split; reflexivity. }
  assert (Rt : in_range 1187500 1161544000 (land b + structure b + features b)).
  { pose proof (add_in_range _ _ _ _ _ _ Rl Rs eq_refl eq_refl) as H1.
    pose proof (add_in_range _ _ _ _ _ _ H1 Rf eq_refl eq_refl) as H2.
    apply (in_range_weaken _ _ _ _ _ H2); reflexivity. }
  repeat (split; [assumption|]).
  rewrite Hpre. destruct (String.eqb (type p) "Commercial").
  - pose proof (mul_in_range _ _ 1.60 1.60 _ (COMMERCIAL_MULTIPLIER default_config) Rt
                  (conj eq_refl eq_refl) eq_refl eq_refl eq_refl eq_refl) as H.
    apply (in_range_weaken _ _ _ _ _ H); reflexivity.
  - apply (in_range_weaken _ _ _ _ _ Rt); reflexivity.
Qed.

(** X1: every request the form can submit is priced, at a positive finite
    amount: the land value lies between 1,187,500 and 874,000,000, the
    pre-jitter total between 1,187,500 and 2,000,000,000, and for a draw in
    [0.97, 1.03] the final price between 1,150,000 and 2,060,000,000. *)
Theorem estimate_range (current : Z) (p : Params) (variance : float) :
  valid_request p ->
  (0.97 <=? variance)%float = true -> (variance <=? 1.03)%float = true ->
  exists r, calculate_estimate default_config current p variance = Ok r
    /\ in_range 1187500 874000000 (land (breakdown r))
    /\ in_range 1187500 2000000000 (pre_variance (breakdown r))
    /\ in_range 1150000 2060000000 (price r)
    /\ positive_finite (price r) = true.
Proof.
  intros Hvalid Hlo Hhi.
  destruct (valid_request_returns current p variance Hvalid) as (r & Hr & _).
  exists r. split; [exact Hr|].
  destruct (valid_breakdown_ranges current p variance r Hvalid Hr) as (Rl & _ & _ & _ & Rp).
  destruct (calculate_estimate_inv _ _ _ _ _ Hr) as (_ & _ & _ & _ & _ & _ & Hprice).
  split; [apply (in_range_weaken _ _ _ _ _ Rl); reflexivity|].
  split; [exact Rp|].
  assert (Rprice : in_range 1150000 2060000000 (price r)).
  { rewrite Hprice.
    pose proof (mul_in_range _ _ 0.97 1.03 _ _ Rp (conj Hlo Hhi)
                  eq_refl eq_refl eq_refl eq_refl) as H.
    apply (in_range_weaken _ _ _ _ _ H); reflexivity. }
  split; [exact Rprice|].
  exact (in_range_positive 1150000 2060000000 _ eq_refl eq_refl Rprice).
Qed.

Lemma estimate_range_witness :
  exists r, calculate_estimate default_config 2026 (example_request "Commercial" 2020) 1.03
            = Ok r
    /\ in_range 1187500 874000000 (land (breakdown r))
    /\ in_range 1187500 2000000000 (pre_variance (breakdown r))
    /\ in_range 1150000 2060000000 (price r)
    /\ positive_finite (price r) = true.
Proof.
  apply (estimate_range 2026 (example_request "Commercial" 2020) 1.03).
  - unfold valid_request, example_request.
    cbn [location area type road_width year_built bedrooms quality].
    split; [vm_compute; eauto|]. split; [lia|]. split; [right; reflexivity|].
    split; [vm_compute; eauto|]. split; [lia|]. intros [=].
  - reflexivity.
  - reflexivity.
Defined.

(** ** The estimate grows with the request *)

Lemma positive_finite_pos (x : float) : positive_finite x = true -> (0 <? x)%float = true.
Proof. intros [H _]%andb_true_iff. exact H. Qed.

Lemma positive_finite_fin (x : float) :
  positive_finite x = true -> (x <? infinity)%float = true.
Proof. intros [_ H]%andb_true_iff. exact H. Qed.

Lemma positive_finite_nonneg (x : float) :
  positive_finite x = true -> (0 <=? x)%float = true.
Proof. intros H. apply ltb_nonneg, positive_finite_pos, H. Qed.

Lemma in_range_nonneg (lo hi x : float) :
  in_range lo hi x -> (0 <=? lo)%float = true -> (0 <=? x)%float = true.
Proof. intros [H _] Hlo. exact (leb_trans _ _ _ Hlo H). Qed.

Lemma add_premium_mono (flag flag' : bool) (l l' k f f' : float) :
  (flag = true -> flag' = true) ->
  positive_finite l = true -> positive_finite l' = true -> (l <=? l')%float = true ->
  positive_finite k = true ->
  (0 <=? f)%float = true -> (f <=? f')%float = true ->
  (add_premium flag l k f <=? add_premium flag' l' k f')%float = true.
Proof.
  intros Hflag Pl Pl' Hl Pk Hf Hff. unfold add_premium.
  assert (Hf' : (0 <=? f')%float = true) by exact (leb_trans _ _ _ Hf Hff).
  assert (Hlk : (0 <=? l * k)%float = true)
    by (apply mul_nonneg_pf; [apply positive_finite_nonneg, Pl|exact Pk]).
  assert (Hlk' : (0 <=? l' * k)%float = true)
    by (apply mul_nonneg_pf; [apply positive_finite_nonneg, Pl'|exact Pk]).
  destruct flag, flag'.
  - apply add_le_mono; try assumption.
    apply mul_le_mono_r;
      [apply positive_finite_nonneg, Pk|apply positive_finite_pos, Pl|exact Hl
      |apply positive_finite_fin, Pl'].
  - discriminate (Hflag eq_refl).
  - apply (leb_trans _ f'); [exact Hff|]. apply le_add_nonneg; assumption.
  - exact Hff.
Qed.

Lemma land_value_mono (p p' : Params) :
  dict_get BASE_RATES (location p) 50000 <= dict_get BASE_RATES (location p') 50000 ->
  (dict_get (ROAD_WIDTH_FACTORS default_config) (road_width p) 1.0
   <=? dict_get (ROAD_WIDTH_FACTORS default_config) (road_width p') 1.0)%float = true ->
  50 <= area p -> area p <= area p' -> area p' <= 4000 ->
  (land_value_of default_config p <=? land_value_of default_config p')%float = true.
Proof.
  intros Hrate Hroad H1 H2 H3. unfold land_value_of.
  pose proof (mul_in_range _ _ _ _ _ _ (base_rate_range (location p))
                (road_factor_range (road_width p)) eq_refl eq_refl eq_refl eq_refl) as R1.
  pose proof (mul_in_range _ _ _ _ _ _ (base_rate_range (location p'))
                (road_factor_range (road_width p')) eq_refl eq_refl eq_refl eq_refl) as R2.
  pose proof (in_range_positive (25000 * 0.95) (190000 * 1.15) _ eq_refl eq_refl R1) as P1.
  pose proof (in_range_positive (25000 * 0.95) (190000 * 1.15) _ eq_refl eq_refl R2) as P2.
  pose proof (in_range_positive 25000 190000 _ eq_refl eq_refl
                (base_rate_range (location p))) as B1.
  pose proof (in_range_positive 25000 190000 _ eq_refl eq_refl
                (base_rate_range (location p'))) as B2.
  pose proof (in_range_positive 0.95 1.15 _ eq_refl eq_refl
                (road_factor_range (road_width p))) as F1.
  pose proof (in_range_positive 0.95 1.15 _ eq_refl eq_refl
                (road_factor_range (road_width p'))) as F2.
  assert (Hpos : 0 <= dict_get BASE_RATES (location p) 50000).
  { pose proof BASE_RATES_bounds as Hb. unfold dict_get.
    destruct (BASE_RATES !! location p) as [rate|] eqn:Hl; [|lia].
    specialize (Hb _ _ Hl). cbv beta in Hb. lia. }
  apply mul_le_mono.
  - apply positive_finite_pos, P1.
  - apply mul_le_mono.
    + apply positive_finite_pos, B1.
    + apply round_int_mono. lia.
    + apply positive_finite_fin, B2.
    + apply positive_finite_pos, F1.
    + exact Hroad.
    + apply positive_finite_fin, F2.
  - apply positive_finite_fin, P2.
  - apply positive_finite_pos. apply area_converts. lia.
  - apply round_int_mono. lia.
  - apply positive_finite_fin. apply area_converts. lia.
Qed.

Lemma features_mono (p p' : Params) :
  50 <= area p <= 4000 -> 50 <= area p' <= 4000 ->
  (land_value_of default_config p <=? land_value_of default_config p')%float = true ->
  (is_corner p = true -> is_corner p' = true) ->
  (is_park p = true -> is_park p' = true) ->
  (is_west_open p = true -> is_west_open p' = true) ->
  (features_of default_config p <=? features_of default_config p')%float = true.
Proof.
  intros Ha Ha' Hl Hc Hp Hw.
  pose proof (in_range_positive 1187500 873999999.9999999 _ eq_refl eq_refl
                (land_value_range p Ha)) as Pl.
  pose proof (in_range_positive 1187500 873999999.9999999 _ eq_refl eq_refl
                (land_value_range p' Ha')) as Pl'.
  unfold features_of.
  set (l := land_value_of default_config p) in *.
  set (l' := land_value_of default_config p') in *.
  pose proof (positive_finite_nonneg _ Pl) as Hl0.
  repeat (apply add_premium_mono; try assumption; try reflexivity;
          try (repeat apply add_premium_nonneg; try assumption; reflexivity)).
Qed.

Lemma structure_mono (current : Z) (b b' year1 year2 : Z) (q q' : string) :
  1 <= b -> b <= b' -> b' <= 12 -> year1 <= year2 ->
  (dict_get (QUALITY_MULTIPLIERS default_config) q 1.0
   <=? dict_get (QUALITY_MULTIPLIERS default_config) q' 1.0)%float = true ->
  (round_int (b * ROOM_PREMIUM default_config)
   * dict_get (QUALITY_MULTIPLIERS default_config) q 1.0
   * calculate_depreciation_factor current year1
   <=? round_int (b' * ROOM_PREMIUM default_config)
       * dict_get (QUALITY_MULTIPLIERS default_config) q' 1.0
       * calculate_depreciation_factor current year2)%float = true.
Proof.
  intros H1 H2 H3 Hy Hq.
  pose proof (mul_in_range _ _ _ _ _ _
                (raw_structure_range b ltac:(lia)) (quality_range q)
                eq_refl eq_refl eq_refl eq_refl) as R1.
  pose proof (mul_in_range _ _ _ _ _ _
                (raw_structure_range b' ltac:(lia)) (quality_range q')
                eq_refl eq_refl eq_refl eq_refl) as R2.
  pose proof (in_range_positive (1200000 * 0.85) (14400000 * 1.60) _ eq_refl eq_refl R1)
    as P1.
  pose proof (in_range_positive (1200000 * 0.85) (14400000 * 1.60) _ eq_refl eq_refl R2)
    as P2.
  pose proof (in_range_positive 0.55 1.10 _ eq_refl eq_refl
                (depreciation_range current year1)) as D1.
  pose proof (in_range_positive 0.55 1.10 _ eq_refl eq_refl
                (depreciation_range current year2)) as D2.
  pose proof (in_range_positive 1200000 14400000 _ eq_refl eq_refl
                (raw_structure_range b ltac:(lia))) as B1.
  pose proof (in_range_positive 1200000 14400000 _ eq_refl eq_refl
                (raw_structure_range b' ltac:(lia))) as B2.
  pose proof (in_range_positive 0.85 1.60 _ eq_refl eq_refl (quality_range q)) as Q1.
  pose proof (in_range_positive 0.85 1.60 _ eq_refl eq_refl (quality_range q')) as Q2.
  apply mul_le_mono.
  - apply positive_finite_pos, P1.
  - apply mul_le_mono.
    + apply positive_finite_pos, B1.
    + apply round_int_mono. unfold ROOM_PREMIUM, default_config. lia.
    + apply positive_finite_fin, B2.
    + apply positive_finite_pos, Q1.
    + exact Hq.
    + apply positive_finite_fin, Q2.
  - apply positive_finite_fin, P2.
  - apply positive_finite_pos, D1.
  - apply depreciation_mono, Hy.
  - apply positive_finite_fin, D2.
Qed.

(** X2: a request that asks for more is never valued lower. For two
    requests the form can submit, of the same type, where the second has a
    location of no lower rate, a road width and a quality of no lower
    factor, no smaller an area, no fewer bedrooms, no older a building and
    every flag of the first, and with draws [v <= v'] in [0.97, 1.03]: both
    estimates are returned, and the land value, the structure value, the
    feature premiums, the pre-jitter total and the final price of the
    second are each at least those of the first, in binary64 arithmetic as
    the code computes them. *)
Theorem estimate_monotone (current : Z) (p p' : Params) (v v' : float) :
  valid_request p -> valid_request p' -> request_le default_config p p' ->
  (0.97 <=? v)%float = true -> (v <=? v')%float = true -> (v' <=? 1.03)%float = true ->
  exists r r',
    calculate_estimate default_config current p v = Ok r
    /\ calculate_estimate default_config current p' v' = Ok r'
    /\ (land (breakdown r) <=? land (breakdown r'))%float = true
    /\ (structure (breakdown r) <=? structure (breakdown r'))%float = true
    /\ (features (breakdown r) <=? features (breakdown r'))%float = true
    /\ (pre_variance (breakdown r) <=? pre_variance (breakdown r'))%float = true
    /\ (price r <=? price r')%float = true.
Proof.
  intros Hvalid Hvalid' (Htype & Hrate & Hroad & Hqual & Harea & Hbed & Hyear & Hc & Hp & Hw)
    Hlo Hvv Hhi.
  destruct (valid_request_returns current p v Hvalid) as (r & Hr & _).
  destruct (valid_request_returns current p' v' Hvalid') as (r' & Hr' & _).
  exists r, r'. split; [exact Hr|]. split; [exact Hr'|].
  destruct (valid_breakdown_ranges current p v r Hvalid Hr) as (Rl & Rs & Rf & Rt & Rp).
  destruct (valid_breakdown_ranges current p' v' r' Hvalid' Hr')
    as (Rl' & Rs' & Rf' & Rt' & Rp').
  cbv zeta in Rl, Rs, Rf, Rt, Rp, Rl', Rs', Rf', Rt', Rp'.
  destruct (calculate_estimate_inv _ _ _ _ _ Hr)
    as (_ & _ & Hland & Hstruct & Hfeat & Hpre & Hprice).
  destruct (calculate_estimate_inv _ _ _ _ _ Hr')
    as (_ & _ & Hland' & Hstruct' & Hfeat' & Hpre' & Hprice').
  cbv zeta in Hland, Hstruct, Hfeat, Hpre, Hprice, Hland', Hstruct', Hfeat', Hpre', Hprice'.
  destruct Hvalid as (_ & Ha & _ & _ & _ & Hres).
  destruct Hvalid' as (_ & Ha' & _ & _ & _ & Hres').
  assert (Ll : (land (breakdown r) <=? land (breakdown r'))%float = true).
  { rewrite Hland, Hland'. apply land_value_mono; try assumption; lia. }
  assert (Ls : (structure (breakdown r) <=? structure (breakdown r'))%float = true).
  { rewrite <- Htype in Hstruct'.
    destruct (String.eqb_spec (type p) "Residential") as [Ht|Ht].
    - destruct Hstruct as (_ & Hd & ->). destruct Hstruct' as (_ & Hd' & ->).
      rewrite Hd, Hd'.
      destruct (Hres Ht) as [Hb _]. rewrite Htype in Ht. destruct (Hres' Ht) as [Hb' _].
      apply structure_mono; try lia. exact Hqual.
    - destruct Hstruct as [_ ->]. destruct Hstruct' as [_ ->]. reflexivity. }
  assert (Lf : (features (breakdown r) <=? features (breakdown r'))%float = true).
  { rewrite Hfeat, Hfeat'. apply features_mono; try assumption.
    rewrite <- Hland, <- Hland'. exact Ll. }
  assert (Lt : (land (breakdown r) + structure (breakdown r) + features (breakdown r)
                <=? land (breakdown r') + structure (breakdown r')
                    + features (breakdown r'))%float = true).
  { apply add_le_mono.
    - apply add_nonneg; [apply (in_range_nonneg _ _ _ Rl eq_refl)
                        |apply (in_range_nonneg _ _ _ Rs eq_refl)].
    - apply (in_range_nonneg _ _ _ Rf eq_refl).
    - apply add_le_mono; try assumption;
        [apply (in_range_nonneg _ _ _ Rl eq_refl)|apply (in_range_nonneg _ _ _ Rs eq_refl)].
    - exact Lf. }
  assert (Lp : (pre_variance (breakdown r) <=? pre_variance (breakdown r'))%float = true).
  { rewrite Hpre, Hpre', <- Htype. destruct (String.eqb (type p) "Commercial").
    - apply mul_le_mono_r; [reflexivity| |exact Lt|].
      + apply positive_finite_pos.
        exact (in_range_positive 1187500 1161544000 _ eq_refl eq_refl Rt).
      + apply positive_finite_fin.
        exact (in_range_positive 1187500 1161544000 _ eq_refl eq_refl Rt').
    - exact Lt. }
  repeat (split; [assumption|]).
  rewrite Hprice, Hprice'.
  pose proof (in_range_positive 1187500 2000000000 _ eq_refl eq_refl Rp) as Pp.
  pose proof (in_range_positive 1187500 2000000000 _ eq_refl eq_refl Rp') as Pp'.
  apply mul_le_mono.
  - apply positive_finite_pos, Pp.
  - exact Lp.
  - apply positive_finite_fin, Pp'.
  - apply (ltb_leb_trans _ 0.97); [reflexivity|exact Hlo].
  - exact Hvv.
  - apply (leb_ltb_trans _ 1.03); [exact Hhi|reflexivity].
Qed.

Lemma estimate_monotone_witness :
  exists r r',
    calculate_estimate default_config 2026 (example_request "Residential" 2010) 0.97 = Ok r
    /\ calculate_estimate default_config 2026 larger_request 1.03 = Ok r'
    /\ (land (breakdown r) <=? land (breakdown r'))%float = true
    /\ (structure (breakdown r) <=? structure (breakdown r'))%float = true
    /\ (features (breakdown r) <=? features (breakdown r'))%float = true
    /\ (pre_variance (breakdown r) <=? pre_variance (breakdown r'))%float = true
    /\ (price r <=? price r')%float = true.
Proof.
  apply (estimate_monotone 2026 (example_request "Residential" 2010) larger_request
           0.97 1.03).
  - unfold valid_request, example_request.
    cbn [location area type road_width year_built bedrooms quality].
    split; [vm_compute; eauto|]. split; [lia|]. split; [left; reflexivity|].
    split; [vm_compute; eauto|]. split; [lia|]. intros _.
    split; [lia|vm_compute; eauto].
  - unfold valid_request, larger_request.
    cbn [location area type road_width year_built bedrooms quality].
    split; [vm_compute; eauto|]. split; [lia|]. split; [left; reflexivity|].
    split; [vm_compute; eauto|]. split; [lia|]. intros _.
    split; [lia|vm_compute; eauto].
  - unfold request_le, example_request, larger_request.
    cbn [location area type road_width year_built bedrooms quality
         is_corner is_park is_west_open].
    repeat split; try reflexivity; try lia.
  - reflexivity.
  - reflexivity.
  - reflexivity.
Defined.

(** ** The parts and the total *)

Lemma le_add_l_nonneg (x y : float) :
  (0 <=? x)%float = true -> (0 <=? y)%float = true -> (y <=? x + y)%float = true.
Proof. intros Hx Hy. rewrite add_comm. apply le_add_nonneg; assumption. Qed.

(** X3: no part of the breakdown exceeds the total. For every request the
    form can submit the estimate is returned, and its land value, its
    structure value and its feature premiums are each at most the
    pre-jitter total, commercial uplift included. *)
Theorem parts_within_total (current : Z) (p : Params) (variance : float) :
  valid_request p ->
  exists r, calculate_estimate default_config current p variance = Ok r
    /\ (land (breakdown r) <=? pre_variance (breakdown r))%float = true
    /\ (structure (breakdown r) <=? pre_variance (breakdown r))%float = true
    /\ (features (breakdown r) <=? pre_variance (breakdown r))%float = true.
Proof.
  intros Hvalid.
  destruct (valid_request_returns current p variance Hvalid) as (r & Hr & _).
  exists r. split; [exact Hr|].
  destruct (valid_breakdown_ranges current p variance r Hvalid Hr) as (Rl & Rs & Rf & Rt & _).
  destruct (calculate_estimate_inv _ _ _ _ _ Hr) as (_ & _ & _ & _ & _ & Hpre & _).
  cbv zeta in Rl, Rs, Rf, Rt, Hpre.
  pose proof (in_range_nonneg _ _ _ Rl eq_refl) as Hl.
  pose proof (in_range_nonneg _ _ _ Rs eq_refl) as Hs.
  pose proof (in_range_nonneg _ _ _ Rf eq_refl) as Hf.
  pose proof (add_nonneg _ _ Hl Hs) as Hls.
  set (total := (land (breakdown r) + structure (breakdown r) + features (breakdown r))%float)
    in *.
  assert (Ht : (total <=? pre_variance (breakdown r))%float = true).
  { rewrite Hpre. destruct (String.eqb (type p) "Commercial").
    - rewrite <- (mul_one_r total) at 1.
      apply mul_le_mono_l; [|reflexivity|reflexivity|reflexivity].
      exact (in_range_nonneg _ _ _ Rt eq_refl).
    - exact (in_range_refl _ _ _ Rt). }
  assert (Hlt : (land (breakdown r) + structure (breakdown r) <=? total)%float = true)
    by (apply le_add_nonneg; assumption).
  split; [|split].
  - apply (leb_trans _ total); [|exact Ht].
    apply (leb_trans _ (land (breakdown r) + structure (breakdown r))); [|exact Hlt].
    apply le_add_nonneg; assumption.
  - apply (leb_trans _ total); [|exact Ht].
    apply (leb_trans _ (land (breakdown r) + structure (breakdown r))); [|exact Hlt].
    apply le_add_l_nonneg; assumption.
  - apply (leb_trans _ total); [|exact Ht]. apply le_add_l_nonneg; assumption.
Qed.

Lemma parts_within_total_witness :
  exists r, calculate_estimate default_config 2026 larger_request 1.0 = Ok r
    /\ (land (breakdown r) <=? pre_variance (breakdown r))%float = true
    /\ (structure (breakdown r) <=? pre_variance (breakdown r))%float = true
    /\ (features (breakdown r) <=? pre_variance (breakdown r))%float = true.
Proof.
  apply (parts_within_total 2026 larger_request 1.0).
  unfold valid_request, larger_request.
  cbn [location area type road_width year_built bedrooms quality].
  split; [vm_compute; eauto|]. split; [lia|]. split; [left; reflexivity|].
  split; [vm_compute; eauto|]. split; [lia|]. intros _.
  split; [lia|vm_compute; eauto].
Defined.

(** ** When the engine raises *)

Lemma binary_round_sign (m : positive) (e : Z) :
  exists M E, forall s, binary_round prec emax s m e = finish s M E.
Proof.
  unfold binary_round.
  pose proof (shl_align_spec m e (fexp prec emax (Z.pos (digits2_pos m) + e))) as H.
  destruct (shl_align m e _) as [mz ez]. destruct H as [Hez Hmz].
  eexists _, _. intros s. apply binary_round_aux_spec; [lia|].
  rewrite Hmz, digits_shift by lia. cbn [Zdigits2].
  replace (Z.pos (digits2_pos m) + (e - ez) + ez) with (Z.pos (digits2_pos m) + e) by lia.
  lia.
Qed.

Lemma finish_infinite (s : bool) (M E : Z) :
  match finish s M E with S754_infinity _ => true | _ => false end
  = match finish false M E with S754_infinity _ => true | _ => false end.
Proof.
  unfold finish.
  destruct (M =? 0), (M =? 2 ^ 53), (E + 1 <=? 971), (E <=? 971); reflexivity.
Qed.

Lemma fits_float_opp (z : Z) : fits_float (- z) = fits_float z.
Proof.
  unfold fits_float. rewrite !is_infinity_spec, !round_int_spec.
  destruct z as [|p|p]; [reflexivity| |].
  - change (- Z.pos p) with (Z.neg p). cbn [binary_normalize].
    destruct (binary_round_sign p 0) as (M & E & H). rewrite !H. f_equal.
    apply finish_infinite.
  - change (- Z.neg p) with (Z.pos p). cbn [binary_normalize].
    destruct (binary_round_sign p 0) as (M & E & H). rewrite !H. f_equal.
    symmetry. apply finish_infinite.
Qed.

Lemma fits_float_below (z : Z) : 0 <= z < 2 ^ 1024 - 2 ^ 970 -> fits_float z = true.
Proof.
  intros Hz.
  assert (Hle : (round_int z <=? round_int (2 ^ 1024 - 2 ^ 970 - 1))%float = true)
    by (apply round_int_mono; lia).
  pose proof (round_int_nonneg z ltac:(lia)) as H0.
  unfold fits_float. rewrite is_infinity_spec.
  rewrite leb_spec in Hle, H0.
  assert (Hmax : exists m e, Prim2SF (round_int (2 ^ 1024 - 2 ^ 970 - 1))
                             = S754_finite false m e)
    by (eexists _, _; vm_compute; reflexivity).
  destruct Hmax as (m & e & Hmax). rewrite Hmax in Hle.
  change (Prim2SF 0) with (S754_zero false) in H0.
  destruct (Prim2SF (round_int z)) as [s|[|]| |[|] mz ez]; try reflexivity;
    cbn in Hle, H0; discriminate.
Qed.

Lemma fits_float_above (z : Z) : 2 ^ 1024 - 2 ^ 970 <= z -> fits_float z = false.
Proof.
  intros Hz.
  assert (Hle : (round_int (2 ^ 1024 - 2 ^ 970) <=? round_int z)%float = true)
    by (apply round_int_mono; lia).
  unfold fits_float. rewrite is_infinity_spec. rewrite leb_spec in Hle.
  assert (Hinf : Prim2SF (round_int (2 ^ 1024 - 2 ^ 970)) = S754_infinity false)
    by (vm_compute; reflexivity).
  rewrite Hinf in Hle.
  destruct (Prim2SF (round_int z)) as [s|[|]| |[|] mz ez]; try reflexivity;
    cbn in Hle; discriminate.
Qed.

Lemma fits_float_iff (z : Z) : fits_float z = false <-> too_large z.
Proof.
  unfold too_large.
  destruct (Z.le_gt_cases 0 z) as [Hz|Hz].
  - rewrite Z.abs_eq by exact Hz.
    destruct (Z.le_gt_cases (2 ^ 1024 - 2 ^ 970) z) as [H|H].
    + split; [intros _; exact H|intros _; apply fits_float_above, H].
    + rewrite fits_float_below by lia. split; [discriminate|lia].
  - rewrite Z.abs_neq by lia. rewrite <- (fits_float_opp z).
    destruct (Z.le_gt_cases (2 ^ 1024 - 2 ^ 970) (- z)) as [H|H].
    + split; [intros _; exact H|intros _; apply fits_float_above, H].
    + rewrite fits_float_below by lia. split; [discriminate|lia].
Qed.

Lemma float_of_int_Raise (z : Z) (e : exn) :
  float_of_int z = Raise e -> fits_float z = false /\ e = OverflowError.
Proof.
  unfold float_of_int. destruct (fits_float z); [discriminate|].
  intros H. split; [reflexivity|]. unfold Raise in H. congruence.
Qed.

(** X4: the engine fails in one way only. Whatever the configuration and
    the request, [calculate_estimate] either returns an estimate or raises
    [OverflowError], and it raises exactly when an int it must convert to a
    float is beyond the binary64 range: the area, or for a residential
    request the bedrooms times the room premium, of magnitude
    2^1024 - 2^970 or more. No float result, however large, makes it fail. *)
Theorem estimate_raises_only_on_overflow (config : MarketConfig) (current : Z)
    (p : Params) (variance : float) :
  let overflow :=
    too_large (area p)
    \/ (type p = "Residential" /\ too_large (bedrooms p * ROOM_PREMIUM config)) in
  (calculate_estimate config current p variance = Raise OverflowError <-> overflow)
  /\ ((exists r, calculate_estimate config current p variance = Ok r) <-> ~ overflow)
  /\ calculate_estimate config current p variance <> Raise ValueError.
Proof.
  intros overflow. unfold overflow. rewrite <- !fits_float_iff.
  unfold calculate_estimate.
  rewrite (float_of_int_fits _ (base_rate_fits (location p))). cbn [bind Ok].
  unfold float_of_int.
  destruct (fits_float (area p)) eqn:Harea; cbn [bind Ok Raise].
  - destruct (String.eqb_spec (type p) "Residential") as [Hres|Hres].
    + destruct (fits_float (bedrooms p * ROOM_PREMIUM config)) eqn:Hraw;
        cbn [bind Ok Raise].
      * split; [|split].
        -- split; [discriminate|]. intros [H|[_ H]]; discriminate H.
        -- split; [intros _ [H|[_ H]]; discriminate H|intros _; eexists; reflexivity].
        -- discriminate.
      * split; [|split].
        -- split; [intros _; right; split; [exact Hres|reflexivity]|reflexivity].
        -- split; [intros [r Hr]; discriminate Hr|].
           intros H. exfalso. apply H. right. split; [exact Hres|reflexivity].
        -- discriminate.
    + cbn [bind Ok Raise]. split; [|split].
      * split; [discriminate|]. intros [H|[H _]]; [discriminate H|contradiction].
      * split; [|intros _; eexists; reflexivity].
        intros _ [H|[H _]]; [discriminate H|contradiction].
      * discriminate.
  - split; [|split].
    + split; [intros _; left; reflexivity|reflexivity].
    + split; [intros [r Hr]; discriminate Hr|]. intros H. exfalso. apply H. left. reflexivity.
    + discriminate.
Qed.

(** ** Depreciation *)

(** X5: the depreciation factor never rewards age: of two construction
    years the later one has the larger or equal factor, and every factor
    lies between 0.55 and 1.10, whatever the current year. *)
Theorem depreciation_monotone (current year1 year2 : Z) :
  year1 <= year2 ->
  (0.55 <=? calculate_depreciation_factor current year1)%float = true
  /\ (calculate_depreciation_factor current year1
      <=? calculate_depreciation_factor current year2)%float = true
  /\ (calculate_depreciation_factor current year2 <=? 1.10)%float = true.
Proof.
  intros Hy. split; [apply depreciation_range|].
  split; [apply depreciation_mono, Hy|apply depreciation_range].
Qed.

Lemma depreciation_monotone_witness :
  (0.55 <=? calculate_depreciation_factor 2026 1990)%float = true
  /\ (calculate_depreciation_factor 2026 1990
      <=? calculate_depreciation_factor 2026 2020)%float = true
  /\ (calculate_depreciation_factor 2026 2020 <=? 1.10)%float = true.
Proof. apply (depreciation_monotone 2026 1990 2020). lia. Defined.

(** ** The tables behind the form *)

Lemma listed_location (zone : string) (locations : list (string * Z)) (loc : string) :
  In (zone, locations) MARKET_CLUSTERS -> In loc (map fst locations) ->
  exists rate, In (loc, rate) locations /\ BASE_RATES !! loc = Some rate
    /\ is_Some (AREA_COORDINATES !! loc) /\ latin1_ignore loc = loc.
Proof.
  intros Hz Hl. unfold MARKET_CLUSTERS in Hz. cbn [In] in Hz.
  repeat destruct Hz as [Hz|Hz]; try contradiction;
    injection Hz as <- <-; cbn [map fst In] in Hl;
    repeat destruct Hl as [<-|Hl]; try contradiction;
    (eexists; split; [repeat (first [left; reflexivity|right])|];
     split; [vm_compute; reflexivity|];
     split; [vm_compute; eauto|vm_compute; reflexivity]).
Qed.

Lemma form_params_valid (f : Form.t) :
  form_ok default_config f -> valid_request (form_params f).
Proof.
  intros ((locations & Hzone & Hloc) & [Harea _] & Htype & Hroad & Hyear & Hres).
  unfold valid_request, form_params.
  cbn [location area type road_width year_built bedrooms quality].
  destruct (listed_location _ _ _ Hzone Hloc) as (rate & _ & Hrate & _).
  split; [rewrite Hrate; eauto|]. split; [exact Harea|]. split; [exact Htype|].
  split; [exact Hroad|]. split; [exact Hyear|].
  intros Ht. rewrite Ht. change ("Residential" =? "Residential")%string with true.
  cbv iota. apply Hres, Ht.
Qed.

(** X6: whatever the form submits is a request the engine is written for: a
    listed location and road width, an area of 50 to 4000, a year of 1950 to
    2025 and, for a residential property, 1 to 12 bedrooms and a listed
    quality; a commercial submission carries 0 bedrooms and the quality
    "B (Standard)", whatever the hidden widgets hold. *)
Theorem form_submission_valid (f : Form.t) :
  form_ok default_config f ->
  valid_request (form_params f)
  /\ (Form.prop_type f = "Commercial" ->
      bedrooms (form_params f) = 0 /\ quality (form_params f) = "B (Standard)").
Proof.
  intros Hok. split; [apply form_params_valid, Hok|].
  intros Ht. unfold form_params. cbn [bedrooms quality]. rewrite Ht.
  split; reflexivity.
Qed.

Lemma form_submission_valid_witness :
  valid_request (form_params example_form)
  /\ (Form.prop_type example_form = "Commercial" ->
      bedrooms (form_params example_form) = 0
      /\ quality (form_params example_form) = "B (Standard)").
Proof.
  apply (form_submission_valid example_form).
  unfold form_ok, example_form.
  cbn [Form.zone Form.location Form.area Form.prop_type Form.road_width Form.year_built
       Form.bedrooms Form.quality].
  split.
  { eexists. split; [right; right; right; left; reflexivity|].
    cbn [map fst In]. right. right. right. left. reflexivity. }
  split; [split; [lia|reflexivity]|]. split; [right; reflexivity|].
  split; [vm_compute; eauto|]. split; [lia|]. intros [=].
Defined.

(** X7: the location the form submits is one the tables know: its rate in
    [BASE_RATES] is the one listed under the chosen zone (no location is
    listed twice, so nothing is overwritten when the clusters are merged),
    that rate is the [base_rate] of the estimate for the submission, and
    [AREA_COORDINATES] has its coordinates, so [render] always draws the
    map. *)
Theorem form_location_listed (current : Z) (variance : float) (f : Form.t) :
  form_ok default_config f ->
  exists locations rate lat lon r,
    In (Form.zone f, locations) MARKET_CLUSTERS
    /\ In (Form.location f, rate) locations
    /\ BASE_RATES !! Form.location f = Some rate
    /\ AREA_COORDINATES !! Form.location f = Some (lat, lon)
    /\ calculate_estimate default_config current (form_params f) variance = Ok r
    /\ base_rate (breakdown r) = rate.
Proof.
  intros Hok. pose proof (form_params_valid f Hok) as Hvalid.
  destruct Hok as ((locations & Hzone & Hloc) & _).
  destruct (listed_location _ _ _ Hzone Hloc) as (rate & Hin & Hrate & [[lat lon] Hc] & _).
  destruct (valid_request_returns current (form_params f) variance Hvalid) as (r & Hr & _).
  exists locations, rate, lat, lon, r.
  repeat (split; [assumption|]).
  destruct (calculate_estimate_inv _ _ _ _ _ Hr) as (_ & Hbase & _).
  cbv zeta in Hbase. rewrite Hbase. unfold form_params. cbn [location].
  apply dict_get_Some. exact Hrate.
Qed.

Lemma form_location_listed_witness :
  exists locations rate lat lon r,
    In (Form.zone example_form, locations) MARKET_CLUSTERS
    /\ In (Form.location example_form, rate) locations
    /\ BASE_RATES !! Form.location example_form = Some rate
    /\ AREA_COORDINATES !! Form.location example_form = Some (lat, lon)
    /\ calculate_estimate default_config 2026 (form_params example_form) 1.0 = Ok r
    /\ base_rate (breakdown r) = rate.
Proof.
  apply (form_location_listed 2026 1.0 example_form).
  unfold form_ok, example_form.
  cbn [Form.zone Form.location Form.area Form.prop_type Form.road_width Form.year_built
       Form.bedrooms Form.quality].
  split.
  { eexists. split; [right; right; right; left; reflexivity|].
    cbn [map fst In]. right. right. right. left. reflexivity. }
  split; [split; [lia|reflexivity]|]. split; [right; reflexivity|].
  split; [vm_compute; eauto|]. split; [lia|]. intros [=].
Defined.

(** ** The price shown *)

Lemma round_half_even_lower (lo : Z) (ml m : positive) (el e : Z) :
  el <= 0 -> Z.pos ml = lo * 2 ^ (- el) ->
  bounded prec emax ml el = true -> bounded prec emax m e = true ->
  SFleb (S754_finite false ml el) (S754_finite false m e) = true ->
  lo <= round_half_even m e.
Proof.
  intros Hel Hml Bl Bm Hle.
  destruct (finite_le_values _ _ _ _ Bl Bm Hle) as [He Hv].
  pose proof (pow2_pos (- el) ltac:(lia)) as Hp.
  unfold round_half_even. destruct (Z.leb_spec 0 e) as [H0|H0].
  - replace (e - el) with (e + - el) in Hv by lia.
    rewrite Z.pow_add_r in Hv by lia. nia.
  - rewrite <- (rne_exact lo (- el)) by lia. rewrite <- Hml.
    rewrite <- (rne_shift (Z.pos m) (- e) (e - el)) by lia.
    replace (- e + (e - el)) with (- el) by lia.
    apply rne_mono; [lia|exact Hv].
Qed.

Lemma round_half_even_upper (hi : Z) (mh m : positive) (eh e : Z) :
  eh <= 0 -> Z.pos mh = hi * 2 ^ (- eh) ->
  bounded prec emax m e = true -> bounded prec emax mh eh = true ->
  SFleb (S754_finite false m e) (S754_finite false mh eh) = true ->
  round_half_even m e <= hi.
Proof.
  intros Heh Hmh Bm Bh Hle.
  destruct (finite_le_values _ _ _ _ Bm Bh Hle) as [He Hv].
  unfold round_half_even. destruct (Z.leb_spec 0 e) as [H0|H0].
  - assert (e = 0) by lia. assert (eh = 0) by lia. subst e eh.
    change (2 ^ 0) with 1. change (2 ^ (0 - 0)) with 1 in Hv.
    change (2 ^ (- 0)) with 1 in Hmh. lia.
  - rewrite <- (rne_exact hi (- e)) by lia.
    apply rne_mono; [lia|].
    replace (- e) with (- eh + (eh - e)) by lia.
    rewrite Z.pow_add_r by lia. rewrite Z.mul_assoc, <- Hmh. exact Hv.
Qed.

Lemma digit_char_numeral (d : Z) : 0 <= d < 10 -> is_numeral_char (digit_char d) = true.
Proof.
  intros Hd.
  assert (H : d = 0 \/ d = 1 \/ d = 2 \/ d = 3 \/ d = 4 \/ d = 5 \/ d = 6 \/ d = 7
              \/ d = 8 \/ d = 9) by lia.
  repeat (destruct H as [->|H]; [reflexivity|]). subst d. reflexivity.
Qed.

Lemma decimal_digits_numeral (fuel : nat) (n : Z) (acc : list ascii) :
  0 <= n ->
  Forall (fun c => is_numeral_char c = true) acc ->
  Forall (fun c => is_numeral_char c = true) (decimal_digits fuel n acc).
Proof.
  revert n acc. induction fuel as [|fuel IH]; intros n acc Hn Hacc; [exact Hacc|].
  cbn [decimal_digits].
  pose proof (Z.mod_pos_bound n 10 ltac:(lia)) as Hmod.
  assert (Hacc' : Forall (fun c => is_numeral_char c = true)
                    (digit_char (n mod 10) :: acc)).
  { constructor; [apply digit_char_numeral; assumption|exact Hacc]. }
  destruct (n <? 10); [exact Hacc'|]. apply IH; [apply Z.div_pos; lia|exact Hacc'].
Qed.

Lemma group3_numeral (n : nat) (l : list ascii) :
  (length l <= n)%nat ->
  Forall (fun c => is_numeral_char c = true) l ->
  Forall (fun c => is_numeral_char c = true) (group3 l).
Proof.
  revert l. induction n as [n IH] using lt_wf_ind.
  intros l Hlen Hl.
  destruct l as [|a [|b [|c [|d rest]]]]; try exact Hl.
  change (group3 (a :: b :: c :: d :: rest))
    with (a :: b :: c :: ","%char :: group3 (d :: rest)).
  inversion Hl as [|? ? Ha Hl1]; subst. inversion Hl1 as [|? ? Hb Hl2]; subst.
  inversion Hl2 as [|? ? Hc Hl3]; subst.
  repeat (constructor; [assumption|]). constructor; [reflexivity|].
  cbn [length] in Hlen.
  apply (IH (n - 3)%nat); [lia|cbn [length]; lia|exact Hl3].
Qed.

Lemma grouped_numeral_chars (n : Z) :
  0 <= n -> Forall (fun c => is_numeral_char c = true) (group_thousands (decimal n)).
Proof.
  intros Hn. unfold group_thousands. apply Forall_rev.
  apply (group3_numeral (length (rev (decimal n)))); [lia|].
  apply Forall_rev. apply decimal_digits_numeral; [exact Hn|constructor].
Qed.

Lemma format_in_range (lo hi : Z) (ml mh : positive) (el eh : Z) (x : float) :
  el <= 0 -> Z.pos ml = lo * 2 ^ (- el) -> bounded prec emax ml el = true ->
  eh <= 0 -> Z.pos mh = hi * 2 ^ (- eh) -> bounded prec emax mh eh = true ->
  in_range (SF2Prim (S754_finite false ml el)) (SF2Prim (S754_finite false mh eh)) x ->
  exists numeral,
    format_comma_0f x = string_of_list_ascii numeral
    /\ Forall (fun c => is_numeral_char c = true) numeral
    /\ lo <= read_grouped numeral <= hi.
Proof.
  intros Hel Hml Bl Heh Hmh Bh [Hlo Hhi].
  rewrite leb_spec in Hlo, Hhi.
  rewrite Prim2SF_SF2Prim in Hlo, Hhi by assumption.
  pose proof (Prim2SF_valid x) as Hv. unfold format_comma_0f.
  destruct (Prim2SF x) as [s|[|]| |[|] m e]; try (cbn in Hlo, Hhi; discriminate).
  exists (group_thousands (decimal (round_half_even m e))).
  pose proof (round_half_even_nonneg m e) as H0.
  split; [reflexivity|]. split; [apply grouped_numeral_chars, H0|].
  rewrite read_grouped_numeral by exact H0. split.
  - exact (round_half_even_lower lo ml m el e Hel Hml Bl Hv Hlo).
  - exact (round_half_even_upper hi mh m eh e Heh Hmh Hv Bh Hhi).
Qed.

Lemma price_text (x : float) :
  in_range 1150000 2060000000 x ->
  exists numeral,
    format_comma_0f x = string_of_list_ascii numeral
    /\ Forall (fun c => is_numeral_char c = true) numeral
    /\ 1150000 <= read_grouped numeral <= 2060000000.
Proof.
  intros Hx.
  apply (format_in_range 1150000 2060000000
           (Z.to_pos (1150000 * 2 ^ 32)) (Z.to_pos (2060000000 * 2 ^ 22)) (-32) (-22));
    try reflexivity; try lia.
  exact Hx.
Qed.

Lemma render_submitted_Ok (config : MarketConfig) (current : Z) (date_str : string)
    (variance : float) (f : Form.t) (r : Estimate) :
  calculate_estimate config current (form_params f) variance = Ok r ->
  render_submitted config current date_str variance f
  = Ok {| shown_price := String.append "PKR " (format_comma_0f (price r));
          shown_crore := (price r / 10000000)%float;
          shown_lakh := (price r / 100000)%float;
          shown_breakdown := breakdown r;
          pdf_calls :=
            create_pdf_bytes date_str
              {| Payload.location := Form.location f; Payload.type := Form.prop_type f;
                 Payload.fmt_price := String.append "PKR " (format_comma_0f (price r));
                 Payload.area := Form.area f; Payload.year_built := Form.year_built f;
                 Payload.road_width := Form.road_width f;
                 Payload.bedrooms := bedrooms (form_params f);
                 Payload.quality := quality (form_params f);
                 Payload.breakdown := breakdown r |} |}.
Proof.
  intros Hr. unfold render_submitted. rewrite Hr. reflexivity.
Qed.

(** X8: a submission of the form never fails and always shows a readable
    price. For every submission the form allows and a draw in [0.97, 1.03],
    [render] reaches the result: the engine returns, the price shown is
    "PKR " followed by a numeral of digits and commas only, without sign,
    that reads back as an integer between 1,150,000 and 2,060,000,000, and
    the breakdown shown is the engine's. *)
Theorem form_submission_shows_price (current : Z) (date_str : string) (variance : float)
    (f : Form.t) :
  form_ok default_config f ->
  (0.97 <=? variance)%float = true -> (variance <=? 1.03)%float = true ->
  exists out r numeral,
    render_submitted default_config current date_str variance f = Ok out
    /\ calculate_estimate default_config current (form_params f) variance = Ok r
    /\ shown_breakdown out = breakdown r
    /\ shown_price out = String.append "PKR " (string_of_list_ascii numeral)
    /\ Forall (fun c => is_numeral_char c = true) numeral
    /\ 1150000 <= read_grouped numeral <= 2060000000.
Proof.
  intros Hok Hlo Hhi. pose proof (form_params_valid f Hok) as Hvalid.
  destruct (valid_request_returns current (form_params f) variance Hvalid) as (r & Hr & _).
  destruct (valid_breakdown_ranges current _ variance r Hvalid Hr) as (_ & _ & _ & _ & Rp).
  destruct (calculate_estimate_inv _ _ _ _ _ Hr) as (_ & _ & _ & _ & _ & _ & Hprice).
  cbv zeta in Rp, Hprice.
  assert (Rprice : in_range 1150000 2060000000 (price r)).
  { rewrite Hprice.
    pose proof (mul_in_range _ _ 0.97 1.03 _ _ Rp (conj Hlo Hhi)
                  eq_refl eq_refl eq_refl eq_refl) as H.
    apply (in_range_weaken _ _ _ _ _ H); reflexivity. }
  destruct (price_text (price r) Rprice) as (numeral & Htext & Hchars & Hread).
  eexists _, r, numeral. split; [apply render_submitted_Ok, Hr|].
  cbn [shown_breakdown shown_price]. rewrite Htext.
  repeat (split; [reflexivity || assumption|]). exact Hread.
Qed.

Lemma form_submission_shows_price_witness :
  exists out r numeral,
    render_submitted default_config 2026 "03-Nov-2026" 1.0 example_form = Ok out
    /\ calculate_estimate default_config 2026 (form_params example_form) 1.0 = Ok r
    /\ shown_breakdown out = breakdown r
    /\ shown_price out = String.append "PKR " (string_of_list_ascii numeral)
    /\ Forall (fun c => is_numeral_char c = true) numeral
    /\ 1150000 <= read_grouped numeral <= 2060000000.
Proof.
  apply (form_submission_shows_price 2026 "03-Nov-2026" 1.0 example_form).
  - unfold form_ok, example_form.
    cbn [Form.zone Form.location Form.area Form.prop_type Form.road_width
         Form.year_built Form.bedrooms Form.quality].
    split.
    { eexists. split; [right; right; right; left; reflexivity|].
      cbn [map fst In]. right. right. right. left. reflexivity. }
    split; [split; [lia|reflexivity]|]. split; [right; reflexivity|].
    split; [vm_compute; eauto|]. split; [lia|]. intros [=].
  - reflexivity.
  - reflexivity.
Defined.

(** ** The report *)

Lemma features_positive_iff (p : Params) :
  50 <= area p <= 4000 ->
  (0 <? features_of default_config p)%float = true
  <-> is_corner p || is_park p || is_west_open p = true.
Proof.
  intros Ha. destruct (features_range p Ha) as (_ & Hany & Hnone).
  destruct (is_corner p || is_park p || is_west_open p).
  - split; [reflexivity|]. intros _. destruct (Hany eq_refl) as [Hlo _].
    apply (ltb_leb_trans _ 59375); [reflexivity|exact Hlo].
  - rewrite (Hnone eq_refl). split; intros H; discriminate H.
Qed.

(** X9: what the report of a form submission lists. The location line
    carries the location as submitted (cleaning for Latin-1 changes no
    listed location) and the type; the headline is the price shown on the
    page; the land value is always listed; the structure value and the line
    of bedrooms and quality are listed exactly for a residential property;
    and the feature premiums are listed exactly when a feature box is
    ticked. *)
Theorem report_lines (current : Z) (date_str : string) (variance : float) (f : Form.t) :
  form_ok default_config f ->
  exists out,
    render_submitted default_config current date_str variance f = Ok out
    /\ In (Cell 0 8 (text ["Location: "; Form.location f; " ("; Form.prop_type f; ")"])
             true false) (pdf_calls out)
    /\ In (Cell 0 10 (text ["Estimated Value: "; shown_price out]) true true)
         (pdf_calls out)
    /\ In (Cell 120 7 "Land Value:" false false) (pdf_calls out)
    /\ (In (Cell 120 7 "Structure Value:" false false) (pdf_calls out)
        <-> Form.prop_type f = "Residential")
    /\ (In (Multi_cell 0 7 (text ["Bedrooms: "; str_int (Form.bedrooms f); newline;
                                  "Quality: "; Form.quality f])) (pdf_calls out)
        <-> Form.prop_type f = "Residential")
    /\ (In (Cell 120 7 "Feature Premiums:" false false) (pdf_calls out)
        <-> Form.is_corner f || Form.is_park f || Form.is_west f = true).
Proof.
  intros Hok. pose proof (form_params_valid f Hok) as Hvalid.
  destruct (valid_request_returns current (form_params f) variance Hvalid) as (r & Hr & _).
  destruct (calculate_estimate_inv _ _ _ _ _ Hr) as (_ & _ & _ & _ & Hfeat & _).
  cbv zeta in Hfeat.
  destruct Hvalid as (_ & Harea & _).
  pose proof (features_positive_iff (form_params f) Harea) as Hpos.
  rewrite <- Hfeat in Hpos.
  change (is_corner (form_params f)) with (Form.is_corner f) in Hpos.
  change (is_park (form_params f)) with (Form.is_park f) in Hpos.
  change (is_west_open (form_params f)) with (Form.is_west f) in Hpos.
  destruct Hok as ((locations & Hzone & Hloc) & _ & Htype & _).
  destruct (listed_location _ _ _ Hzone Hloc) as (_ & _ & _ & _ & Hclean).
  eexists. split; [apply render_submitted_Ok, Hr|].
  cbn [pdf_calls shown_price]. unfold create_pdf_bytes.
  cbn [Payload.location Payload.type Payload.fmt_price Payload.area Payload.road_width
       Payload.bedrooms Payload.quality Payload.breakdown].
  rewrite Hclean. rewrite <- Hpos.
  unfold form_params. cbn [bedrooms quality].
  cbn [text fold_right String.append].
  rewrite !in_app_iff.
  destruct (String.eqb_spec (Form.prop_type f) "Residential") as [Hres|Hres];
    destruct (0 <? features (breakdown r))%float; cbn [In];
    (split; [tauto|]); (split; [tauto|]); (split; [tauto|]);
    (split; [split; [intros H; try exact Hres;
                     repeat destruct H as [H|H]; try discriminate H; try contradiction
                    |intros H; try contradiction; tauto]|]);
    (split; [split; [intros H; try exact Hres;
                     repeat destruct H as [H|H]; try discriminate H; try contradiction
                    |intros H; try contradiction; tauto]|]);
    (split; [intros H; try reflexivity;
             repeat destruct H as [H|H]; try discriminate H; try contradiction
            |intros H; try discriminate H; tauto]).
Qed.

Lemma report_lines_witness :
  exists out,
    render_submitted default_config 2026 "03-Nov-2026" 1.0 example_form = Ok out
    /\ In (Cell 0 8 (text ["Location: "; Form.location example_form; " (";
                           Form.prop_type example_form; ")"])
             true false) (pdf_calls out)
    /\ In (Cell 0 10 (text ["Estimated Value: "; shown_price out]) true true)
         (pdf_calls out)
    /\ In (Cell 120 7 "Land Value:" false false) (pdf_calls out)
    /\ (In (Cell 120 7 "Structure Value:" false false) (pdf_calls out)
        <-> Form.prop_type example_form = "Residential")
    /\ (In (Multi_cell 0 7 (text ["Bedrooms: "; str_int (Form.bedrooms example_form);
                                  newline; "Quality: "; Form.quality example_form]))
          (pdf_calls out)
        <-> Form.prop_type example_form = "Residential")
    /\ (In (Cell 120 7 "Feature Premiums:" false false) (pdf_calls out)
        <-> Form.is_corner example_form || Form.is_park example_form
            || Form.is_west example_form = true).
Proof.
  apply (report_lines 2026 "03-Nov-2026" 1.0 example_form).
  unfold form_ok, example_form.
  cbn [Form.zone Form.location Form.area Form.prop_type Form.road_width
       Form.year_built Form.bedrooms Form.quality].
  split.
  { eexists. split; [right; right; right; left; reflexivity|].
    cbn [map fst In]. right. right. right. left. reflexivity. }
  split; [split; [lia|reflexivity]|]. split; [right; reflexivity|].
  split; [vm_compute; eauto|]. split; [lia|]. intros [=].
Defined.

(** ** Cleaning the location for Latin-1 *)

Lemma latin1_ignore_from_ascii (s : list ascii) :
  Forall (fun c => (nat_of_ascii c < 128)%nat) s -> latin1_ignore_from 0 true s = s.
Proof.
  induction 1 as [|c s Hc _ IH]; [reflexivity|].
  cbn [latin1_ignore_from]. apply Nat.ltb_lt in Hc. rewrite Hc, IH. reflexivity.
Qed.

Lemma latin1_ignore_from_idempotent (s : list ascii) :
  latin1_ignore_from 0 true (latin1_ignore_from 0 true s) = latin1_ignore_from 0 true s
  /\ latin1_ignore_from 1 true (latin1_ignore_from 1 true s) = latin1_ignore_from 1 true s
  /\ forall pending,
       latin1_ignore_from 0 true (latin1_ignore_from pending false s)
       = latin1_ignore_from pending false s.
Proof.
  induction s as [|b s (IH0 & IH1 & IHdrop)]; [split; [|split; [|intros [|k]]]; reflexivity|].
  assert (H0 : latin1_ignore_from 0 true (latin1_ignore_from 0 true (b :: s))
               = latin1_ignore_from 0 true (b :: s)).
  { cbn [latin1_ignore_from].
    destruct (nat_of_ascii b <? 128)%nat eqn:Hb.
    - cbn [latin1_ignore_from]. rewrite Hb, IH0. reflexivity.
    - destruct ((nat_of_ascii b =? 194) || (nat_of_ascii b =? 195))%nat eqn:Hc.
      + cbn [latin1_ignore_from]. rewrite Hb, Hc, IH1. reflexivity.
      + destruct (nat_of_ascii b <? 224)%nat; [apply IHdrop|].
        destruct (nat_of_ascii b <? 240)%nat; apply IHdrop. }
  split; [exact H0|]. split.
  - cbn [latin1_ignore_from app]. rewrite IH0. reflexivity.
  - intros [|k]; [exact H0|]. cbn [latin1_ignore_from app]. apply IHdrop.
Qed.

(** X10: cleaning a text for Latin-1 leaves every text of one-byte
    characters as it is; in particular nothing of an ASCII location is lost
    in the report. *)
Theorem latin1_ignore_ascii (s : string) : is_ascii s -> latin1_ignore s = s.
Proof.
  intros Hs. unfold latin1_ignore. rewrite latin1_ignore_from_ascii by exact Hs.
  apply string_of_list_ascii_of_string.
Qed.

Lemma latin1_ignore_ascii_witness :
  latin1_ignore "Gulistan-e-Jauhar Blk 15" = "Gulistan-e-Jauhar Blk 15".
Proof.
  apply (latin1_ignore_ascii "Gulistan-e-Jauhar Blk 15").
  unfold is_ascii. cbn [list_ascii_of_string].
  repeat (constructor; [vm_compute; lia|]). constructor.
Defined.

(** X11: cleaning is done in one pass: what [latin1_ignore] returns has
    nothing left to drop, so cleaning it again changes nothing. *)
Theorem latin1_ignore_idempotent (s : string) :
  latin1_ignore (latin1_ignore s) = latin1_ignore s.
Proof.
  unfold latin1_ignore. rewrite list_ascii_of_string_of_list_ascii.
  f_equal. apply latin1_ignore_from_idempotent.
Qed.

(** ** A forecast over no months *)

(** X12: below one month the forecast has nothing to show: for a positive
    start price, a negative number of months makes [generate_forecast]
    raise [ValueError] (from [linspace], before anything is drawn), and zero
    months give the frame with no rows. *)
Theorem forecast_without_months (normal : float -> float -> nat -> list float)
    (today : date) (start_price : float) (months : Z) :
  months <= 0 -> (0 <? start_price)%float = true ->
  generate_forecast normal today start_price months
  = if months <? 0 then Raise ValueError else Ok {| Date := []; Market_Value := [] |}.
Proof.
  intros Hm Hstart. unfold generate_forecast, linspace.
  destruct (Z.ltb_spec months 0) as [Hneg|Hzero]; [reflexivity|].
  assert (months = 0) by lia. subst months.
  assert (Hscale : (start_price * 0.015 <? 0)%float = false).
  { apply nonneg_not_negative. apply mul_nonneg; [|reflexivity|reflexivity].
    apply pos_nonneg. exact Hstart. }
  cbn [bind Ok Z.ltb Z.compare Z.sub Z.opp Z.add Z.to_nat seq fmap list_fmap length
       Nat.pred]. rewrite Hscale. reflexivity.
Qed.

Lemma forecast_without_months_witness :
  generate_forecast no_noise {| year := 2026; month := 11; day := 3 |} 49560000 (-1)
  = Raise ValueError.
Proof.
  apply (forecast_without_months no_noise {| year := 2026; month := 11; day := 3 |}
           49560000 (-1)); [lia|reflexivity].
Defined.
